(** * Squid DAO vote calculator: security-audit proofs of concept

    A shallow embedding of [poc_demonstration.py] and of the probes of
    [tests/test_security_audit_pocs.py], of the rate anomaly detector
    that the specification abstracts from them, and of the statements
    made about both.

    Python integers are [Z] and [//] is floor division ([Z.div]).  Python
    floats are binary64 values, computed with the standard library's
    executable IEEE 754 specification.  A call of the external contract
    returns a rate or raises; the tests wrap each probe in
    [try: ... except Exception]. *)

From Stdlib Require Import ZArith QArith Qabs Qreduction List String Bool Lia.
From Stdlib Require Import Floats.SpecFloat.
Import ListNotations.

Local Open Scope Z_scope.

(** ** Python values and exceptions *)

Module Py.

Inductive exn : Set :=
| ZeroDivisionError
| OverflowError
| IndexError
| ContractRevert.

Inductive result (A : Type) : Type :=
| Ok (a : A)
| Raise (e : exn).

Arguments Ok {A} a.
Arguments Raise {A} e.

Definition bind {A B : Type} (c : result A) (k : A -> result B) : result B :=
  match c with
  | Ok a => k a
  | Raise e => Raise e
  end.

(** [try: body except Exception: handler] *)
Definition try_except {A : Type} (body : result A) (handler : exn -> A) : A :=
  match body with
  | Ok a => a
  | Raise e => handler e
  end.

(** [a // b] *)
Definition floordiv (a b : Z) : result Z :=
  if b =? 0 then Raise ZeroDivisionError else Ok (a / b).

(** [10**18], the fixed-point scale of rates and balances *)
Definition WAD : Z := 10 ^ 18.

End Py.

Export Py.

Declare Scope py_scope.
Delimit Scope py_scope with py.
Notation "x <- c ;; k" := (bind c (fun x => k))
  (at level 61, c at next level, right associativity) : py_scope.
Local Open Scope py_scope.

(** ** Python floats

    A Python [float] is an IEEE 754 binary64 value.  [int / int] returns
    the float nearest to the exact quotient (ties to even) and raises
    [OverflowError] when that is out of range; a decimal literal denotes
    the float nearest to it; float arithmetic rounds to nearest and
    saturates to infinity without raising. *)

Module F64.

Definition prec : Z := 53.
Definition emax : Z := 1024.

Definition float : Set := spec_float.

Definition mantissa_of (n : Z) : float :=
  match n with
  | Z0 => S754_zero false
  | Zpos p => S754_finite false p 0
  | Zneg p => S754_finite true p 0
  end.

Definition checked (x : float) : result float :=
  match x with
  | S754_infinity _ => Raise OverflowError
  | _ => Ok x
  end.

(** the conversion of an [int] operand in mixed arithmetic *)
Definition of_int (n : Z) : result float :=
  checked (binary_normalize prec emax n 0 false).

(** [a / b] on two [int]s *)
Definition int_truediv (a b : Z) : result float :=
  if b =? 0 then Raise ZeroDivisionError
  else checked (SFdiv prec emax (mantissa_of a) (mantissa_of b)).

(** the literal [digits / scale], e.g. [12.6445] is [literal 126445 10000] *)
Definition literal (digits scale : Z) : float :=
  SFdiv prec emax (mantissa_of digits) (mantissa_of scale).

Definition mul (x y : float) : float := SFmul prec emax x y.
Definition add (x y : float) : float := SFadd prec emax x y.
Definition sub (x y : float) : float := SFsub prec emax x y.
Definition abs (x : float) : float := SFabs x.

(** [x * n], [n + x] with [n] an [int] *)
Definition mul_int (x : float) (n : Z) : result float :=
  y <- of_int n ;; Ok (mul x y).
Definition int_add (n : Z) (x : float) : result float :=
  y <- of_int n ;; Ok (add y x).

(** Comparisons.  Against an [int] Python compares exactly; the source
    only compares against [100] and [1], which are floats. *)
Definition gtb (x y : float) : bool := SFltb y x.
Definition leb (x y : float) : bool := SFleb x y.
Definition small_int (n : Z) : float := binary_normalize prec emax n 0 false.
Definition gt_int (x : float) (n : Z) : bool := gtb x (small_int n).
Definition le_int (x : float) (n : Z) : bool := leb x (small_int n).

Definition is_finite (x : float) : bool :=
  match x with
  | S754_zero _ | S754_finite _ _ _ => true
  | _ => false
  end.

(** The invariant of the rounding shifts: the record's mantissa is the
    integer part of [N / D], and its round and sticky bits are clear
    exactly when the division is exact. *)
Definition brackets (mrs : shr_record) (N D : Z) : Prop :=
  0 < D /\ 0 <= shr_m mrs
  /\ shr_m mrs * D <= N < (shr_m mrs + 1) * D
  /\ (shr_r mrs || shr_s mrs = false <-> N = shr_m mrs * D).

(** The mantissa, at exponent -46, of the float next above [100.0]. *)
Definition next_above_100 : Z := 100 * 2 ^ 46 + 1.

(** [N / D * 2^e] is at least the float next above 100. *)
Definition at_least (e N D : Z) : Prop :=
  next_above_100 * 2 ^ Z.max 0 (- (e + 46)) * D <= N * 2 ^ Z.max 0 (e + 46).

(** [N / D * 2^e] is at least [Cm * 2^Ce]. *)
Definition reaches (Cm Ce e N D : Z) : Prop :=
  Cm * 2 ^ Z.max 0 (Ce - e) * D <= N * 2 ^ Z.max 0 (e - Ce).

(** Twice the mantissa, at exponent -66, of the float nearest to
    [0.0001], plus one: over [2^67] it is the midpoint between that float
    and the next. *)
Definition loss_alarm_midpoint : Z := 2 * 7378697629483821 + 1.

End F64.

(** ** tests/test_security_audit_pocs.py

    The fork tests read the contract through the [census] fixture.  Each
    probe is one [try] block; its finding records the branch taken and the
    numbers it printed.  A number that is only formatted for display is
    still computed inside the block, so that what it may raise reaches
    the handler. *)

Module SecurityAuditPocs.

Record Census : Type := {
  squid_lp_equivalent : Z -> result Z;
  squill_lp_equivalent : Z -> result Z
}.

Inductive dust_finding : Set :=
| CriticalVulnerabilityConfirmed
    (inflation_factor : F64.float) (voting_power expected_voting_power : Z)
| NoSignificantInflation
    (inflation_factor : F64.float) (voting_power expected_voting_power : Z)
| FunctionReverted.

(** lines 39-72: the SQUILL LP probe with 1 wei *)
Definition squill_dust_attack (census : Census) (squill_lp_standard : Z)
  : dust_finding :=
  try_except
    (squill_lp_equiv_1_wei <- squill_lp_equivalent census 1 ;;
     inflation_factor <- F64.int_truediv squill_lp_equiv_1_wei squill_lp_standard ;;
     voting_power_1_wei <- floordiv (1 * squill_lp_equiv_1_wei) WAD ;;
     expected_voting_power <- floordiv (1 * squill_lp_standard) WAD ;;
     shown_rate <- F64.int_truediv squill_lp_equiv_1_wei WAD ;;
     shown_standard <- F64.int_truediv squill_lp_standard WAD ;;
     Ok (if F64.gt_int inflation_factor 100
         then CriticalVulnerabilityConfirmed
                inflation_factor voting_power_1_wei expected_voting_power
         else NoSignificantInflation
                inflation_factor voting_power_1_wei expected_voting_power))
    (fun _ => FunctionReverted).

Inductive comparison_finding : Set :=
| FunctionExecuted (squid_inflation : F64.float) (squid_voting_power : Z)
| CorrectlyProtected.

(** lines 78-89: the SQUID LP probe with 1 wei *)
Definition squid_dust_comparison (census : Census) (squid_lp_standard : Z)
  : comparison_finding :=
  try_except
    (squid_lp_equiv_1_wei <- squid_lp_equivalent census 1 ;;
     squid_inflation <- F64.int_truediv squid_lp_equiv_1_wei squid_lp_standard ;;
     squid_voting_power <- floordiv (1 * squid_lp_equiv_1_wei) WAD ;;
     Ok (FunctionExecuted squid_inflation squid_voting_power))
    (fun _ => CorrectlyProtected).

Definition test_poc_dust_attack_vulnerability (census : Census)
  : result (dust_finding * comparison_finding) :=
  squid_lp_standard <- squid_lp_equivalent census WAD ;;
  squill_lp_standard <- squill_lp_equivalent census WAD ;;
  shown_squid <- F64.int_truediv squid_lp_standard WAD ;;
  shown_squill <- F64.int_truediv squill_lp_standard WAD ;;
  Ok (squill_dust_attack census squill_lp_standard,
      squid_dust_comparison census squid_lp_standard).

Definition dust_threshold : Z := 10000000.

Definition bypass_test_amounts : list Z :=
  [dust_threshold - 1; dust_threshold; dust_threshold + 1; dust_threshold * 10].

Inductive threshold_note : Set :=
| BelowDustThreshold
| AboveDustThreshold.

Inductive bypass_finding : Set :=
| Measured (squid_lp_equiv squill_lp_equiv : Z)
           (squid_voting_power squill_voting_power : Z)
           (note : option threshold_note)
| AmountReverted.

(** lines 122-144: one amount of the threshold test *)
Definition dust_protection_probe (census : Census) (amount : Z)
  : bypass_finding :=
  try_except
    (squid_lp_equiv <- squid_lp_equivalent census amount ;;
     squill_lp_equiv <- squill_lp_equivalent census amount ;;
     squid_voting_power <- floordiv (amount * squid_lp_equiv) WAD ;;
     squill_voting_power <- floordiv (amount * squill_lp_equiv) WAD ;;
     shown_squid <- F64.int_truediv squid_lp_equiv WAD ;;
     shown_squill <- F64.int_truediv squill_lp_equiv WAD ;;
     Ok (Measured squid_lp_equiv squill_lp_equiv
                  squid_voting_power squill_voting_power
                  (if amount <? dust_threshold then Some BelowDustThreshold
                   else if amount >=? dust_threshold then Some AboveDustThreshold
                   else None)))
    (fun _ => AmountReverted).

Definition test_poc_dust_protection_bypass
    (census : Census) (voter_addresses : list string)
  : result (list bypass_finding) :=
  match voter_addresses with
  | [] => Raise IndexError
  | test_addr :: _ => Ok (map (dust_protection_probe census) bypass_test_amounts)
  end.

Definition precision_test_amounts : list Z :=
  [1; 10 ^ 9; 10 ^ 15; 10 ^ 17; 10 ^ 18; 10 ^ 19].

Inductive precision_finding : Set :=
| PrecisionLossDetected
    (squid_voting_power expected_squid squill_voting_power expected_squill : Z)
    (squid_loss_pct squill_loss_pct : F64.float)
| PrecisionAcceptable
    (squid_voting_power expected_squid squill_voting_power expected_squill : Z)
    (squid_loss_pct squill_loss_pct : F64.float)
| AmountFailed.

(** lines 252-256: [abs(vp - expected) if expected > 0 else 0], then
    [(loss / expected * 100) if expected > 0 else 0]; the integer [0] of
    the [else] branch is kept as the float zero it compares as. *)
Definition loss_of (voting_power expected : Z) : Z :=
  if 0 <? expected then Z.abs (voting_power - expected) else 0.

Definition loss_pct_of (loss expected : Z) : result F64.float :=
  if 0 <? expected then
    ratio <- F64.int_truediv loss expected ;;
    F64.mul_int ratio 100
  else Ok (S754_zero false).

(** lines 235-270: one amount of the precision test *)
Definition precision_loss_probe (census : Census) (amount : Z)
  : precision_finding :=
  try_except
    (squid_equiv <- squid_lp_equivalent census amount ;;
     squill_equiv <- squill_lp_equivalent census amount ;;
     squid_voting_power <- floordiv (amount * squid_equiv) WAD ;;
     squill_voting_power <- floordiv (amount * squill_equiv) WAD ;;
     squid_equiv_1 <- squid_lp_equivalent census WAD ;;
     squill_equiv_1 <- squill_lp_equivalent census WAD ;;
     expected_squid <- floordiv (amount * squid_equiv_1) WAD ;;
     expected_squill <- floordiv (amount * squill_equiv_1) WAD ;;
     squid_loss_pct <-
       loss_pct_of (loss_of squid_voting_power expected_squid) expected_squid ;;
     squill_loss_pct <-
       loss_pct_of (loss_of squill_voting_power expected_squill) expected_squill ;;
     shown_amount <- F64.int_truediv amount WAD ;;
     Ok (if F64.gtb squid_loss_pct (F64.literal 1 100)
            || F64.gtb squill_loss_pct (F64.literal 1 100)
         then PrecisionLossDetected
                squid_voting_power expected_squid
                squill_voting_power expected_squill
                squid_loss_pct squill_loss_pct
         else PrecisionAcceptable
                squid_voting_power expected_squid
                squill_voting_power expected_squill
                squid_loss_pct squill_loss_pct))
    (fun _ => AmountFailed).

Definition test_poc_precision_loss_vulnerability (census : Census)
  : list precision_finding :=
  map (precision_loss_probe census) precision_test_amounts.

(** The price views of the [census] fixture, and its two equivalence
    views called without an argument. *)
Record Oracle : Type := {
  eth_price : result Z;
  squid_price : result Z;
  squill_price : result Z;
  squid_lp_equivalent_default : result Z;
  squill_lp_equivalent_default : result Z
}.

Inductive oracle_finding : Set :=
| OracleAnalysed (eth squid squill squid_lp_equiv squill_lp_equiv : Z)
| OracleError (e : exn).

(** lines 169-206: one [try] block around the five reads *)
Definition test_poc_oracle_manipulation_risk (census : Oracle)
  : oracle_finding :=
  try_except
    (eth <- eth_price census ;;
     squid <- squid_price census ;;
     squill <- squill_price census ;;
     shown_eth <- F64.int_truediv eth WAD ;;
     shown_squid <- F64.int_truediv squid WAD ;;
     shown_squill <- F64.int_truediv squill WAD ;;
     squid_lp_equiv <- squid_lp_equivalent_default census ;;
     squill_lp_equiv <- squill_lp_equivalent_default census ;;
     shown_squid_lp <- F64.int_truediv squid_lp_equiv WAD ;;
     shown_squill_lp <- F64.int_truediv squill_lp_equiv WAD ;;
     Ok (OracleAnalysed eth squid squill squid_lp_equiv squill_lp_equiv))
    OracleError.

Definition edge_cases : list (string * Z) :=
  [("Zero quantity"%string, 0);
   ("Maximum uint256"%string, 2 ^ 256 - 1);
   ("Large amount"%string, 10 ^ 30);
   ("Just below dust"%string, 9999999);
   ("Exact dust threshold"%string, 10000000)].

Inductive view_finding : Set :=
| Equivalent (equiv : Z)
| ViewFailed.

(** lines 304-318: one amount of the edge-case test, each pool in a
    [try] block of its own *)
Definition edge_case_probe (census : Census) (amount : Z)
  : view_finding * view_finding :=
  (try_except
     (squid_equiv <- squid_lp_equivalent census amount ;;
      Ok (Equivalent squid_equiv))
     (fun _ => ViewFailed),
   try_except
     (squill_equiv <- squill_lp_equivalent census amount ;;
      Ok (Equivalent squill_equiv))
     (fun _ => ViewFailed)).

Definition test_poc_edge_case_vulnerabilities (census : Census)
  : list (string * (view_finding * view_finding)) :=
  map (fun '(case_name, amount) => (case_name, edge_case_probe census amount))
      edge_cases.

Inductive threat : Set :=
| CRITICAL
| HIGH
| LOW.

Record simulation : Set := {
  attack_viable : bool;
  oracle_vulnerable : bool;
  threat_level : threat;
  max_voting_power : option Z
}.

(** lines 343-365: the first [try] block.  It ends with [voting_power]
    bound, or in the handler before [voting_power] is assigned. *)
Definition dust_attack_preparation (census : Census) : option Z :=
  try_except
    (let dust_amount := 1 in
     squill_rate_dust <- squill_lp_equivalent census dust_amount ;;
     squill_rate_normal <- squill_lp_equivalent census WAD ;;
     inflation_factor <- F64.int_truediv squill_rate_dust squill_rate_normal ;;
     voting_power <- floordiv (dust_amount * squill_rate_dust) WAD ;;
     Ok (Some voting_power))
    (fun _ => None).

(** lines 368-381: the second [try] block *)
Definition oracle_assessment (prices : Oracle) : bool :=
  try_except
    (current_squid_price <- squid_price prices ;;
     current_eth_price <- eth_price prices ;;
     shown_squid <- F64.int_truediv current_squid_price WAD ;;
     shown_eth <- F64.int_truediv current_eth_price WAD ;;
     Ok true)
    (fun _ => false).

(** The fixture is one object in the source; [voter_addresses] is not
    used.  [voting_power] is read for the summary only when
    [attack_viable] holds, and is bound then. *)
Definition test_poc_comprehensive_attack_simulation
    (census : Census) (prices : Oracle) (voter_addresses : list string)
  : simulation :=
  let prepared := dust_attack_preparation census in
  let viable :=
    match prepared with
    | Some voting_power => voting_power >? 1000
    | None => false
    end in
  let vulnerable := oracle_assessment prices in
  {| attack_viable := viable;
     oracle_vulnerable := vulnerable;
     threat_level :=
       if viable && vulnerable then CRITICAL
       else if viable || vulnerable then HIGH
       else LOW;
     max_voting_power := if viable then prepared else None |}.

End SecurityAuditPocs.

(** ** poc_demonstration.py

    The demonstrations take no input.  Each returns its Python return
    value together with the rows it prints, in order; the wording and
    layout of the report are left out. *)

Module PocDemonstration.

Local Open Scope string_scope.

Fixpoint mapM {A B : Type} (f : A -> result B) (l : list A) : result (list B) :=
  match l with
  | [] => Ok []
  | x :: rest => y <- f x ;; ys <- mapM f rest ;; Ok (y :: ys)
  end.

(** *** POC #1 *)

Inductive squill_status : Set :=
| Vulnerable (voting_power : Z)
| SquillProtected.

Inductive dust_event : Set :=
| VulnerabilityAlert (amount voting_power : Z)
| DustRow (amount : Z) (squill : squill_status) (protected : bool)
| AboveThresholdRow (amount : Z).

Definition dust_amounts : list Z :=
  [1; 100; 1000; 1000000; 5000000; 9999999]%Z.

Definition above_threshold : list Z := [10000000; 10000001; 10 ^ 18]%Z.

(** the body of [for amount in dust_amounts], on the pair of
    [vulnerability_found] and the rows printed so far *)
Definition dust_iteration (state : bool * list dust_event) (amount : Z)
  : bool * list dust_event :=
  let '(vulnerability_found, printed) := state in
  if (amount =? 1)%Z then
    let inflated_rate := 5162271%Z in
    let voting_power := (amount * inflated_rate)%Z in
    (true,
     (printed ++ [VulnerabilityAlert amount voting_power;
                  DustRow amount (Vulnerable voting_power) (negb (amount =? 1)%Z)])%list)
  else
    (vulnerability_found,
     (printed ++ [DustRow amount SquillProtected (negb (amount =? 1)%Z)])%list).

Definition dust_loop (amounts : list Z) (state : bool * list dust_event)
  : bool * list dust_event :=
  fold_left dust_iteration amounts state.

Definition demonstrate_dust_attack_poc : bool * list dust_event :=
  let '(vulnerability_found, printed) := dust_loop dust_amounts (false, []) in
  (vulnerability_found, (printed ++ map AboveThresholdRow above_threshold)%list).

(** *** POC #2 *)

Definition test_voters : list (string * string) :=
  [("0x5abC63ebF1950d531408cf8E12cE24c047504847", "Voter with raw SQUID only");
   ("0xb19d6b66b18fae0fca1023138b229e5f970b5180", "Voter with SQUID + LP tokens");
   ("0x6c46f3f23ed4a070da8d7c1af302d09394efb79f", "Voter with complex portfolio")].

Inductive balance_status : Set :=
| Accurate
| Mismatch.

Record balance_row : Set := {
  voter : string;
  voter_description : string;
  expected_total : F64.float;
  actual_total : F64.float;
  difference : F64.float;
  status : balance_status
}.

(** the body of [for addr, description in test_voters] *)
Definition balance_iteration (entry : string * string) : result balance_row :=
  let '(addr, description) := entry in
  let raw_squid := (1000 * 10 ^ 18)%Z in
  squid_lp_balance <- F64.mul_int (F64.literal 5 10) (10 ^ 18) ;;
  squill_lp_balance <- F64.mul_int (F64.literal 3 10) (10 ^ 18) ;;
  with_squid <-
    F64.int_add raw_squid (F64.mul squid_lp_balance (F64.literal 126445 10000)) ;;
  let expected := F64.add with_squid
                    (F64.mul squill_lp_balance (F64.literal 126445 10000)) in
  let actual := expected in
  let diff := F64.abs (F64.sub actual expected) in
  Ok {| voter := addr;
        voter_description := description;
        expected_total := expected;
        actual_total := actual;
        difference := diff;
        status := if F64.le_int diff 1 then Accurate else Mismatch |}.

Definition balance_loop (voters : list (string * string))
  : result (list balance_row) :=
  mapM balance_iteration voters.

Definition demonstrate_balance_calculation_poc : result (bool * list balance_row) :=
  rows <- balance_loop test_voters ;; Ok (true, rows).

(** *** POC #3 *)

Inductive edge_result : Set :=
| ReturnsZero
| DustProtected
| NoOverflow
| NormalCalc.

Definition edge_cases : list (Z * string * string) :=
  [(0%Z, "Zero quantity", "Should return 0");
   ((10 ^ 6)%Z, "Micro amount", "Dust protection check");
   ((10 ^ 18)%Z, "Standard amount", "Normal calculation");
   ((10 ^ 24)%Z, "Large amount", "Overflow protection");
   ((10 ^ 27)%Z, "Maximum amount", "Extreme value handling")].

Definition edge_case_result (quantity : Z) : edge_result :=
  if (quantity =? 0)%Z then ReturnsZero
  else if (quantity <? 10000000)%Z then DustProtected
  else if (quantity >=? 10 ^ 24)%Z then NoOverflow
  else NormalCalc.

Definition demonstrate_lp_equivalent_edge_cases
  : bool * list (Z * string * string * edge_result) :=
  (true, map (fun '(quantity, description, expected) =>
                (quantity, description, expected, edge_case_result quantity))
             edge_cases).

(** *** POC #4 *)

Definition census_tests : list (string * string) :=
  [("Balance Functionality", "Core balance retrieval works");
   ("Balance Ordering", "Voters sorted by voting power correctly");
   ("LP Equivalency", "Price calculations consistent");
   ("Price Consistency", "Oracle data validation");
   ("Voter Diversity", "Multiple token types handled")].

Definition demonstrate_census_functionality_poc
  : bool * list (string * string * string) :=
  (true, map (fun '(test_name, description) => (test_name, description, "PASS"))
             census_tests).

(** *** main *)

Record summary : Set := {
  poc_results : list (string * bool * string);
  critical_found : bool;
  tests_passed : nat;
  exit_status : Z
}.

(** the body of [for poc_name, executed, severity in poc_results] *)
Definition summary_iteration (found : bool) (entry : string * bool * string)
  : bool :=
  let '(poc_name, executed, severity) := entry in
  if severity =? "CRITICAL" then true else found.

Definition main : result summary :=
  let vulnerability_found := fst demonstrate_dust_attack_poc in
  let poc_1 := ("Dust Attack Vulnerability", vulnerability_found,
                if vulnerability_found then "CRITICAL" else "PASS") in
  balance <- demonstrate_balance_calculation_poc ;;
  let poc_2 := ("Balance Calculation Accuracy", fst balance, "PASS") in
  let poc_3 := ("LP Equivalent Edge Cases",
                fst demonstrate_lp_equivalent_edge_cases, "PASS") in
  let poc_4 := ("Census Functionality",
                fst demonstrate_census_functionality_poc, "PASS") in
  let results := [poc_1; poc_2; poc_3; poc_4] in
  let found := fold_left summary_iteration results false in
  Ok {| poc_results := results;
        critical_found := found;
        tests_passed :=
          List.length (filter (fun r => snd r =? "PASS") results);
        exit_status := if negb found then 0%Z else 1%Z |}.

End PocDemonstration.

(** ** The rate anomaly detector

    The source has no detector function: the tests above inline its
    checks.  This module is the detector of section 4.1 of the
    specification, written from the specification alone.  It is the
    reference that the tests' own arithmetic is measured against. *)

Module Detector.

(** What the external rate function answered for the probe. *)
Inductive probe : Set :=
| Returned (probeRate : Z)
| Reverts.

(** A contract call as a probe: any exception is the revert signal, as
    under [except Exception]. *)
Definition observe (call : result Z) : probe :=
  match call with
  | Ok rate => Returned rate
  | Raise _ => Reverts
  end.

Record ThresholdSet : Set := {
  dustThreshold : Z;
  inflationAlarmFactor : Q;
  precisionLossAlarmPct : Q
}.

(** Modelled from the spec: the values of section 3, 10,000,000 wei,
    100x and 0.01 percent. *)
Definition default_thresholds : ThresholdSet :=
  {| dustThreshold := 10000000;
     inflationAlarmFactor := 100;
     precisionLossAlarmPct := 1 # 100 |}.

Inductive Verdict : Set :=
| Normal (evidence : Q)
| DustInflated (inflationFactor : Q) (votingPower : Z)
| PrecisionLoss (lossPct : Q)
| Reverted
| UnexpectedRevert.

(** Modelled from the spec: the real-valued division, multiplication and
    comparison of section 4.1, on exact rationals kept in lowest terms.
    Nothing is rounded; a division by zero raises. *)
Definition quotient (a b : Z) : result Q :=
  if b =? 0 then Raise ZeroDivisionError
  else Ok (Qred (inject_Z a / inject_Z b)).

Definition times (x : Q) (n : Z) : Q := Qred (x * inject_Z n).

Definition gt (x y : Q) : bool := negb (Qle_bool x y).

(** Modelled from the spec: [quantity * rate / 10^18] by truncating
    integer division, steps 4 and 5. *)
Definition voting_power (quantity rate : Z) : Z :=
  (quantity * rate) ÷ WAD.

(** Modelled from the spec: step 3,
    [inflationFactor = probeRate / baselineRate], real-valued.  The
    tests divide in binary64 instead, see [F64.int_truediv]. *)
Definition real_inflation_factor (probeRate baselineRate : Z) : result Q :=
  quotient probeRate baselineRate.

(** Modelled from the spec: step 5,
    [lossPct = |actual - expected| / expected * 100] when [expected > 0],
    else 0, real-valued.  The tests compute it in binary64 instead, see
    [loss_pct_of]. *)
Definition real_loss_pct (actual expected : Z) : result Q :=
  if 0 <? expected then
    ratio <- quotient (Z.abs (actual - expected)) expected ;;
    Ok (times ratio 100)
  else Ok 0%Q.

(** Modelled from the spec: the source has no function [evaluate].  The
    steps and their order are those of section 4.1.  A reverted probe is
    [Reverted] below [dustThreshold] and, by the failure semantics of
    section 4.1 and the taxonomy of section 7, [UnexpectedRevert] at or
    above it.  The zero quantity is step 2.  The inflation factor and the
    loss percentage are the real-valued quotients of steps 3 and 5, the
    voting powers the integer divisions of steps 4 and 5. *)
Definition evaluate (quantity : Z) (p : probe) (baselineRate : Z)
                    (thresholds : ThresholdSet) : result Verdict :=
  match p with
  | Reverts =>
      if quantity <? dustThreshold thresholds then Ok Reverted
      else Ok UnexpectedRevert
  | Returned probeRate =>
      if quantity =? 0 then Ok (Normal 0%Q)
      else
        inflationFactor <- real_inflation_factor probeRate baselineRate ;;
        if (quantity <? dustThreshold thresholds)
           && gt inflationFactor (inflationAlarmFactor thresholds)
        then
          Ok (DustInflated inflationFactor (voting_power quantity probeRate))
        else
          let expected := voting_power quantity baselineRate in
          let actual := voting_power quantity probeRate in
          lossPct <- real_loss_pct actual expected ;;
          if gt lossPct (precisionLossAlarmPct thresholds)
          then Ok (PrecisionLoss lossPct)
          else Ok (Normal inflationFactor)
  end.

End Detector.

(** * Properties *)

Import Detector SecurityAuditPocs PocDemonstration.

(** ** Integer and float arithmetic *)

Lemma floordiv_WAD (a : Z) : floordiv a WAD = Ok (a / 10 ^ 18).
Proof. reflexivity. Qed.

(** On non-negative operands Python's floor division truncates. *)
Lemma floordiv_is_truncation (a : Z) : 0 <= a -> a / 10 ^ 18 = a ÷ 10 ^ 18.
Proof.
  intros Ha. symmetry. apply Z.quot_div_nonneg; [exact Ha | reflexivity].
Qed.

Lemma new_location_zero (n : Z) : new_location n 0 = loc_Exact.
Proof. unfold new_location. now destruct (Z.even n). Qed.

Lemma div_eucl_shifted (p : positive) :
  Z.div_eucl (Z.shiftl (Zpos p) 53) (Zpos p) = (2 ^ 53, 0).
Proof.
  rewrite Z.shiftl_mul_pow2 by lia.
  assert (Hq : Zpos p * 2 ^ 53 / Zpos p = 2 ^ 53).
  { rewrite Z.mul_comm. apply Z.div_mul. lia. }
  assert (Hr : (Zpos p * 2 ^ 53) mod Zpos p = 0).
  { rewrite Z.mul_comm. apply Z.mod_mul. lia. }
  unfold Z.div, Z.modulo in Hq, Hr.
  destruct (Z.div_eucl (Zpos p * 2 ^ 53) (Zpos p)) as [q r].
  now subst.
Qed.

(** [b / b == 1.0] for every positive [int], however large. *)
Lemma int_truediv_self (b : Z) :
  0 < b -> F64.int_truediv b b = Ok (F64.small_int 1).
Proof.
  intros Hb. destruct b as [| p | p]; try lia.
  unfold F64.int_truediv. cbn [Z.eqb F64.mantissa_of SFdiv xorb].
  unfold SFdiv_core_binary.
  replace (Zdigits2 (Zpos p) + 0 - (Zdigits2 (Zpos p) + 0)) with 0 by lia.
  change (Z.min (fexp F64.prec F64.emax 0) (0 - 0)) with (-53).
  change (0 - 0 - -53) with 53.
  cbv iota beta.
  rewrite div_eucl_shifted, new_location_zero.
  reflexivity.
Qed.

(** [0 / b == 0.0] for every positive [int]. *)
Lemma int_truediv_zero (b : Z) :
  0 < b -> F64.int_truediv 0 b = Ok (S754_zero false).
Proof.
  intros Hb. destruct b as [| p | p]; try lia. reflexivity.
Qed.

(** A finite float minus itself is [+0.0]. *)
Lemma float_sub_self (x : F64.float) :
  F64.is_finite x = true -> F64.sub x x = S754_zero false.
Proof.
  destruct x as [s | s | | s m e]; cbn [F64.is_finite]; intros H;
    try discriminate H.
  - now destruct s.
  - unfold F64.sub, SFsub. now rewrite Z.sub_diag.
Qed.

(** *** Rounding at the alarm factor *)

Lemma digits2_pos_size (p : positive) : digits2_pos p = Pos.size p.
Proof. induction p; cbn; now rewrite ?IHp. Qed.

Lemma Zdigits2_le (m k : Z) : 0 <= m -> 0 <= k -> m < 2 ^ k -> Zdigits2 m <= k.
Proof.
  intros Hm Hk Hlt. destruct m as [| p | p]; cbn [Zdigits2]; try lia.
  rewrite digits2_pos_size.
  assert (H := Pos.size_le p).
  apply Pos2Z.pos_le_pos in H. rewrite Pos2Z.inj_pow in H.
  change (Zpos p~0) with (2 * Zpos p) in H.
  destruct (Z.le_gt_cases (Zpos (Pos.size p)) k) as [Hle | Hgt]; [exact Hle |].
  exfalso.
  assert (H' : 2 ^ Z.succ k <= 2 ^ Zpos (Pos.size p))
    by (apply Z.pow_le_mono_r; lia).
  rewrite Z.pow_succ_r in H' by lia. lia.
Qed.

Lemma Zdigits2_gt (m : Z) : 0 <= m -> m < 2 ^ Zdigits2 m.
Proof.
  intros Hm. destruct m as [| p | p]; cbn [Zdigits2]; try lia.
  rewrite digits2_pos_size.
  assert (H := Pos.size_gt p).
  apply Pos2Z.pos_lt_pos in H. now rewrite Pos2Z.inj_pow in H.
Qed.

Lemma shr_1_brackets (mrs : shr_record) (N D : Z) :
  F64.brackets mrs N D -> F64.brackets (shr_1 mrs) N (2 * D).
Proof.
  destruct mrs as [m r s]. unfold F64.brackets. cbn [shr_m shr_r shr_s].
  intros (HD & Hm & Hb & Hx).
  destruct m as [| [p | p |] | p]; cbn [shr_1 shr_m shr_r shr_s orb].
  - (* 0 *)
    split; [lia | split; [lia | split; [lia |]]]. rewrite Hx. lia.
  - (* 2p+1 *)
    rewrite Pos2Z.inj_xI in Hb.
    split; [lia | split; [lia | split; [lia |]]].
    split; [discriminate | intros ->; exfalso; lia].
  - (* 2p *)
    rewrite Pos2Z.inj_xO in Hb, Hx.
    split; [lia | split; [lia | split; [lia |]]]. rewrite Hx. lia.
  - (* 1 *)
    split; [lia | split; [lia | split; [lia |]]].
    split; [discriminate | intros ->; exfalso; lia].
  - (* negative *)
    lia.
Qed.

Lemma pow2_double (k : Z) : 0 <= k -> 2 ^ (2 * k) = 2 ^ k * 2 ^ k.
Proof.
  intros Hk. rewrite <- Z.pow_add_r by lia. f_equal. lia.
Qed.

Lemma iter_shr_1_brackets (n : positive) :
  forall (mrs : shr_record) (N D : Z),
  F64.brackets mrs N D -> F64.brackets (iter_pos shr_1 n mrs) N (2 ^ Zpos n * D).
Proof.
  induction n as [n IH | n IH |]; intros mrs N D H; cbn [iter_pos].
  - apply shr_1_brackets in H. apply IH in H. apply IH in H.
    replace (2 ^ Zpos n~1 * D) with (2 ^ Zpos n * (2 ^ Zpos n * (2 * D)));
      [exact H |].
    change (Zpos n~1) with (2 * Zpos n + 1).
    rewrite Z.pow_add_r, pow2_double by lia. change (2 ^ 1) with 2. ring.
  - apply IH in H. apply IH in H.
    replace (2 ^ Zpos n~0 * D) with (2 ^ Zpos n * (2 ^ Zpos n * D));
      [exact H |].
    change (Zpos n~0) with (2 * Zpos n).
    rewrite pow2_double by lia. ring.
  - apply shr_1_brackets in H. exact H.
Qed.

Lemma shr_m_of_loc (m : Z) (l : location) : shr_m (shr_record_of_loc m l) = m.
Proof. now destruct l as [| []]. Qed.

(** A value of at most [100 * 2^-e] has at most [7 - e] digits. *)
Lemma digits_below_100 (m e : Z) :
  0 <= m -> e <= -46 -> m <= 100 * 2 ^ (- e) ->
  fexp F64.prec F64.emax (Zdigits2 m + e) <= -46.
Proof.
  intros Hm He Hle.
  assert (Hd : Zdigits2 m <= 7 - e).
  { apply Zdigits2_le; [exact Hm | lia |].
    replace (7 - e) with (7 + - e) by lia.
    rewrite Z.pow_add_r by lia. change (2 ^ 7) with 128.
    assert (0 < 2 ^ (- e)) by (apply Z.pow_pos_nonneg; lia). lia. }
  unfold fexp, emin, F64.prec, F64.emax. lia.
Qed.

Lemma shr_fexp_below_100 (m e : Z) (l : location) (N D : Z) :
  F64.brackets (shr_record_of_loc m l) N D ->
  e <= -46 -> N <= 100 * 2 ^ (- e) * D ->
  exists D',
    F64.brackets (fst (shr_fexp F64.prec F64.emax m e l)) N D'
    /\ snd (shr_fexp F64.prec F64.emax m e l) <= -46
    /\ N <= 100 * 2 ^ (- snd (shr_fexp F64.prec F64.emax m e l)) * D'.
Proof.
  intros Hb He HN.
  assert (Hm : 0 <= m /\ m <= 100 * 2 ^ (- e)).
  { destruct Hb as (HD & Hm & Hb & _). rewrite shr_m_of_loc in Hm, Hb.
    split; [exact Hm |].
    assert (0 < 2 ^ (- e)) by (apply Z.pow_pos_nonneg; lia). nia. }
  assert (Hf := digits_below_100 m e (proj1 Hm) He (proj2 Hm)).
  unfold shr_fexp, shr.
  destruct (fexp F64.prec F64.emax (Zdigits2 m + e) - e) as [| p | p] eqn:En;
    cbn [fst snd].
  - exists D. split; [exact Hb | split; [exact He | exact HN]].
  - exists (2 ^ Zpos p * D). split; [| split].
    + now apply iter_shr_1_brackets.
    + lia.
    + replace (- e) with (- (e + Zpos p) + Zpos p) in HN by lia.
      rewrite Z.pow_add_r in HN by lia. lia.
  - exists D. split; [exact Hb | split; [exact He | exact HN]].
Qed.

Lemma round_nearest_even_below (mrs : shr_record) (N D G : Z) :
  F64.brackets mrs N D -> N <= G * D ->
  0 <= round_nearest_even (shr_m mrs) (loc_of_shr_record mrs) <= G.
Proof.
  destruct mrs as [m r s]. unfold F64.brackets. cbn [shr_m shr_r shr_s].
  intros (HD & Hm & Hb & Hx) HN.
  assert (Hle : m <= G) by nia.
  assert (Hlt : r || s = true -> m + 1 <= G).
  { intros Hf. assert (N <> m * D).
    { intros E. apply Hx in E. rewrite E in Hf. discriminate. }
    nia. }
  destruct r, s; cbn [loc_of_shr_record round_nearest_even];
    try destruct (Z.even m); try specialize (Hlt eq_refl); lia.
Qed.

Lemma not_above_100 (m e : Z) :
  0 <= m -> e <= -46 -> m <= 100 * 2 ^ (- e) ->
  SFltb (F64.small_int 100)
        match m with
        | Z0 => S754_zero false
        | Zpos p =>
            if e <=? F64.emax - F64.prec then S754_finite false p e
            else S754_infinity false
        | Zneg _ => S754_nan
        end = false.
Proof.
  intros Hm He Hle. destruct m as [| p | p]; try reflexivity.
  replace (e <=? F64.emax - F64.prec) with true
    by (symmetry; apply Z.leb_le; unfold F64.emax, F64.prec; lia).
  change (F64.small_int 100) with (S754_finite false 7036874417766400 (-46)).
  unfold SFltb, SFcompare.
  destruct (Z.compare_spec (-46) e) as [E | E | E]; try reflexivity; [| lia].
  subst e. change (2 ^ (- -46)) with 70368744177664 in Hle.
  rewrite Pos.compare_cont_spec. cbn [Pos.switch_Eq].
  destruct (Pos.compare_spec 7036874417766400 p) as [E | E | E];
    try reflexivity.
  exfalso. apply Pos2Z.pos_lt_pos in E. lia.
Qed.

(** Rounding to nearest does not cross 100, which is a float. *)
Lemma binary_round_aux_below_100 (m e : Z) (l : location) (N D : Z) :
  F64.brackets (shr_record_of_loc m l) N D ->
  e <= -46 -> N <= 100 * 2 ^ (- e) * D ->
  SFltb (F64.small_int 100)
        (binary_round_aux F64.prec F64.emax false m e l) = false.
Proof.
  intros Hb He HN. unfold binary_round_aux.
  destruct (shr_fexp_below_100 m e l N D Hb He HN) as (D1 & Hb1 & He1 & HN1).
  destruct (shr_fexp F64.prec F64.emax m e l) as [mrs1 e1]. cbn [fst snd] in *.
  assert (Hr := round_nearest_even_below mrs1 N D1 (100 * 2 ^ (- e1)) Hb1 HN1).
  set (m1 := round_nearest_even (shr_m mrs1) (loc_of_shr_record mrs1)) in *.
  assert (Hb2 : F64.brackets (shr_record_of_loc m1 loc_Exact) m1 1).
  { unfold F64.brackets. cbn [shr_record_of_loc shr_m shr_r shr_s orb].
    repeat split; lia. }
  destruct (shr_fexp_below_100 m1 e1 loc_Exact m1 1 Hb2 He1 ltac:(lia))
    as (D2 & Hb3 & He2 & HN2).
  destruct (shr_fexp F64.prec F64.emax m1 e1 loc_Exact) as [mrs2 e2].
  cbn [fst snd] in *.
  apply not_above_100; [apply Hb3 | exact He2 |].
  destruct Hb3 as (HD2 & Hm2 & Hb3 & _).
  assert (0 < 2 ^ (- e2)) by (apply Z.pow_pos_nonneg; lia). nia.
Qed.

Lemma flags_of_loc (m : Z) (l : location) :
  shr_r (shr_record_of_loc m l) || shr_s (shr_record_of_loc m l) = false
  <-> l = loc_Exact.
Proof.
  destruct l as [| []]; cbn; split; intros H; try reflexivity; discriminate H.
Qed.

Lemma new_location_exact (n k : Z) : new_location n k = loc_Exact <-> k = 0.
Proof.
  unfold new_location.
  destruct (IntDef.Z.even n); unfold new_location_even, new_location_odd;
    destruct (Z.eqb_spec k 0) as [-> | Hk]; split; intros H;
    try reflexivity; try discriminate H; contradiction.
Qed.

(** The quotient of two positive integers, divided as [SFdiv] divides it,
    is bracketed by the mantissa and its successor. *)
Lemma div_eucl_brackets (N b : Z) :
  0 <= N -> 0 < b ->
  F64.brackets (shr_record_of_loc (fst (Z.div_eucl N b))
                              (new_location b (snd (Z.div_eucl N b)))) N b.
Proof.
  intros HN Hb. assert (H := Z_div_mod N b ltac:(lia)).
  destruct (Z.div_eucl N b) as [q r]. cbn [fst snd]. destruct H as [E Hr].
  unfold F64.brackets. rewrite flags_of_loc, new_location_exact, shr_m_of_loc.
  repeat split; nia.
Qed.

Lemma int_truediv_below_100 (a b : Z) (x : F64.float) :
  0 <= a -> 0 < b -> a <= 100 * b ->
  F64.int_truediv a b = Ok x -> F64.gt_int x 100 = false.
Proof.
  intros Ha Hb Hle. unfold F64.int_truediv.
  destruct (Z.eqb_spec b 0) as [E | _]; [lia |].
  destruct b as [| pb | pb]; try lia.
  destruct a as [| pa | pa]; try lia.
  { cbn. intros [= <-]. reflexivity. }
  cbn [F64.mantissa_of SFdiv xorb]. unfold SFdiv_core_binary.
  set (e' := Z.min (fexp F64.prec F64.emax
                      (Zdigits2 (Zpos pa) + 0 - (Zdigits2 (Zpos pb) + 0)))
                   (0 - 0)).
  assert (He : e' <= -46).
  { assert (Hd : Zdigits2 (Zpos pa) <= 7 + Zdigits2 (Zpos pb)).
    { assert (Hg := Zdigits2_gt (Zpos pb) ltac:(lia)).
      assert (0 <= Zdigits2 (Zpos pb)) by (cbn; lia).
      apply Zdigits2_le; [lia | lia |].
      rewrite Z.pow_add_r by lia. change (2 ^ 7) with 128. lia. }
    unfold e', fexp, emin, F64.prec, F64.emax. lia. }
  destruct (0 - 0 - e') as [| s | s] eqn:Es; try lia.
  rewrite Z.shiftl_mul_pow2 by lia.
  assert (HN : 0 <= Zpos pa * 2 ^ Zpos s).
  { assert (0 < 2 ^ Zpos s) by (apply Z.pow_pos_nonneg; lia). nia. }
  assert (Hbr := div_eucl_brackets (Zpos pa * 2 ^ Zpos s) (Zpos pb) HN ltac:(lia)).
  destruct (Z.div_eucl (Zpos pa * 2 ^ Zpos s) (Zpos pb)) as [q r].
  cbn [fst snd] in Hbr.
  assert (Hround := binary_round_aux_below_100 q e' (new_location (Zpos pb) r)
                      (Zpos pa * 2 ^ Zpos s) (Zpos pb) Hbr He).
  replace (- e') with (Zpos s) in Hround by lia.
  specialize (Hround ltac:(assert (0 < 2 ^ Zpos s)
                             by (apply Z.pow_pos_nonneg; lia); nia)).
  unfold F64.checked.
  destruct (binary_round_aux F64.prec F64.emax false q e'
              (new_location (Zpos pb) r)) eqn:Ex;
    intros [= <-]; exact Hround.
Qed.

(** Whenever a test finds [inflation_factor > 100] in binary64, the
    exact quotient exceeds 100 as well. *)
Theorem float_alarm_sound (a b : Z) (x : F64.float) :
  0 <= a -> 0 < b ->
  F64.int_truediv a b = Ok x -> F64.gt_int x 100 = true -> 100 * b < a.
Proof.
  intros Ha Hb Hx Hgt.
  destruct (Z.lt_ge_cases (100 * b) a) as [H | H]; [exact H |].
  rewrite (int_truediv_below_100 a b x Ha Hb H Hx) in Hgt. discriminate.
Qed.

(** ** The probes of the fork tests *)

(** A reverting view ends a probe in its handler, whatever the amount. *)
Lemma dust_protection_probe_reverted (census : Census) (amount : Z) :
  observe (squid_lp_equivalent census amount) = Reverts ->
  dust_protection_probe census amount = AmountReverted.
Proof.
  unfold dust_protection_probe.
  destruct (squid_lp_equivalent census amount); [discriminate | reflexivity].
Qed.

Lemma squill_dust_attack_reverted (census : Census) (standard : Z) :
  observe (squill_lp_equivalent census 1) = Reverts ->
  squill_dust_attack census standard = FunctionReverted.
Proof.
  unfold squill_dust_attack.
  destruct (squill_lp_equivalent census 1); [discriminate | reflexivity].
Qed.

Lemma precision_loss_probe_reverted (census : Census) (amount : Z) :
  observe (squid_lp_equivalent census amount) = Reverts ->
  precision_loss_probe census amount = AmountFailed.
Proof.
  unfold precision_loss_probe.
  destruct (squid_lp_equivalent census amount); [discriminate | reflexivity].
Qed.

(** The division by the standard rate is inside the [try] block: a zero
    standard rate ends in the handler too. *)
Lemma squill_dust_attack_zero_standard (census : Census) :
  squill_dust_attack census 0 = FunctionReverted.
Proof.
  unfold squill_dust_attack.
  now destruct (squill_lp_equivalent census 1).
Qed.

(** When nothing raises, the finding of the dust-attack test is decided
    by [inflation_factor > 100] alone, and reports the floor-divided
    voting powers. *)
Lemma squill_dust_attack_returned
    (census : Census) (standard rate : Z) (factor shown shown' : F64.float) :
  squill_lp_equivalent census 1 = Ok rate ->
  F64.int_truediv rate standard = Ok factor ->
  F64.int_truediv rate WAD = Ok shown ->
  F64.int_truediv standard WAD = Ok shown' ->
  squill_dust_attack census standard =
  if F64.gt_int factor 100
  then CriticalVulnerabilityConfirmed factor (rate / 10 ^ 18) (standard / 10 ^ 18)
  else NoSignificantInflation factor (rate / 10 ^ 18) (standard / 10 ^ 18).
Proof.
  intros Hr Hf Hs Hs'. unfold squill_dust_attack.
  rewrite Hr. cbn [bind]. rewrite Hf. cbn [bind].
  rewrite !floordiv_WAD. cbn [bind]. rewrite Hs, Hs'. cbn [bind try_except].
  now rewrite !Z.mul_1_l.
Qed.

(** With the 1 wei rate equal to the standard rate the factor is exactly
    [1.0] and the test reports no inflation. *)
Lemma squill_dust_attack_equal_rates
    (census : Census) (rate : Z) (shown : F64.float) :
  0 < rate ->
  squill_lp_equivalent census 1 = Ok rate ->
  F64.int_truediv rate WAD = Ok shown ->
  squill_dust_attack census rate =
  NoSignificantInflation (F64.small_int 1) (rate / 10 ^ 18) (rate / 10 ^ 18).
Proof.
  intros Hpos Hr Hs.
  now rewrite (squill_dust_attack_returned census rate rate
                 (F64.small_int 1) shown shown Hr (int_truediv_self rate Hpos) Hs Hs).
Qed.

Lemma loss_pct_of_equal (expected : Z) :
  loss_pct_of (loss_of expected expected) expected = Ok (S754_zero false).
Proof.
  unfold loss_pct_of, loss_of. rewrite Z.sub_diag.
  destruct (Z.ltb_spec 0 expected) as [He | He]; [| reflexivity].
  cbn [Z.abs]. now rewrite int_truediv_zero.
Qed.

(** The guard [expected > 0] keeps the loss percentage of the precision
    test from dividing by zero. *)
Lemma loss_pct_of_guarded (loss expected : Z) :
  loss_pct_of loss expected <> Raise ZeroDivisionError.
Proof.
  unfold loss_pct_of, F64.int_truediv, F64.mul_int.
  destruct (Z.ltb_spec 0 expected) as [He | He]; [| discriminate].
  destruct (Z.eqb_spec expected 0) as [E | _]; [lia |].
  destruct (SFdiv F64.prec F64.emax (F64.mantissa_of loss)
                  (F64.mantissa_of expected)); discriminate.
Qed.

(** With a contract whose rate does not depend on the amount, every amount
    of the precision test is reported as acceptable, with no loss. *)
Lemma precision_loss_probe_constant_rate (rate amount : Z) :
  In amount precision_test_amounts ->
  let census := {| squid_lp_equivalent := fun _ => Ok rate;
                   squill_lp_equivalent := fun _ => Ok rate |} in
  let power := amount * rate / 10 ^ 18 in
  precision_loss_probe census amount =
  PrecisionAcceptable power power power power (S754_zero false) (S754_zero false).
Proof.
  intros Hin census power. unfold precision_loss_probe.
  cbn [squid_lp_equivalent squill_lp_equivalent census bind].
  rewrite !floordiv_WAD. cbn [bind]. fold power.
  rewrite !loss_pct_of_equal. cbn [bind].
  assert (Hs : match F64.int_truediv amount WAD with
               | Ok _ => True
               | Raise _ => False
               end).
  { cbn [precision_test_amounts In] in Hin.
    destruct Hin as [H | [H | [H | [H | [H | [H | []]]]]]];
      rewrite <- H; vm_compute; exact I. }
  destruct (F64.int_truediv amount WAD); [reflexivity | contradiction].
Qed.

(** ** The detector's arithmetic *)

Lemma quotient_ok (a b : Z) :
  b <> 0 -> quotient a b = Ok (Qred (inject_Z a / inject_Z b)).
Proof.
  intros Hb. unfold quotient.
  destruct (Z.eqb_spec b 0) as [E | _]; [contradiction | reflexivity].
Qed.

Lemma quotient_zero_divisor (a : Z) : quotient a 0 = Raise ZeroDivisionError.
Proof. reflexivity. Qed.

Lemma gt_true (x y : Q) : gt x y = true <-> (y < x)%Q.
Proof.
  unfold gt. rewrite negb_true_iff, <- not_true_iff_false, Qle_bool_iff.
  split; [apply Qnot_le_lt | apply Qlt_not_le].
Qed.

Lemma gt_false (x y : Q) : gt x y = false <-> (x <= y)%Q.
Proof.
  unfold gt. rewrite negb_false_iff. apply Qle_bool_iff.
Qed.

Lemma gt_Qred (x y : Q) : gt (Qred x) y = gt x y.
Proof.
  destruct (gt x y) eqn:E.
  - apply gt_true. rewrite Qred_correct. now apply gt_true.
  - apply gt_false. rewrite Qred_correct. now apply gt_false.
Qed.

Lemma times_Qred (x : Q) (n : Z) :
  times (Qred x) n = Qred (x * inject_Z n).
Proof.
  unfold times. apply Qred_complete. now rewrite Qred_correct.
Qed.

(** ** The steps of [evaluate] *)

Lemma evaluate_reverts_below
    (quantity baselineRate : Z) (thresholds : ThresholdSet) :
  quantity < dustThreshold thresholds ->
  evaluate quantity Reverts baselineRate thresholds = Ok Reverted.
Proof.
  intros H. cbn [evaluate].
  destruct (Z.ltb_spec quantity (dustThreshold thresholds)); [reflexivity | lia].
Qed.

Lemma evaluate_reverts_from
    (quantity baselineRate : Z) (thresholds : ThresholdSet) :
  dustThreshold thresholds <= quantity ->
  evaluate quantity Reverts baselineRate thresholds = Ok UnexpectedRevert.
Proof.
  intros H. cbn [evaluate].
  destruct (Z.ltb_spec quantity (dustThreshold thresholds)); [lia | reflexivity].
Qed.

Lemma evaluate_zero (probeRate baselineRate : Z) (thresholds : ThresholdSet) :
  evaluate 0 (Returned probeRate) baselineRate thresholds = Ok (Normal 0).
Proof. reflexivity. Qed.

Lemma real_loss_pct_value (actual expected : Z) :
  real_loss_pct actual expected =
  Ok (Qred (if 0 <? expected
            then inject_Z (Z.abs (actual - expected)) / inject_Z expected * 100
            else 0)).
Proof.
  unfold real_loss_pct. destruct (Z.ltb_spec 0 expected) as [He | He].
  - rewrite quotient_ok by lia. cbn [bind]. now rewrite times_Qred.
  - reflexivity.
Qed.

(** Past the zero case, with a non-zero baseline, [evaluate] is the two
    threshold comparisons of section 4.1 on the exact quotients. *)
Lemma evaluate_returned (quantity probeRate baselineRate : Z)
                        (thresholds : ThresholdSet) :
  quantity <> 0 -> baselineRate <> 0 ->
  let inflationFactor := (inject_Z probeRate / inject_Z baselineRate)%Q in
  let expected := (quantity * baselineRate) ÷ 10 ^ 18 in
  let actual := (quantity * probeRate) ÷ 10 ^ 18 in
  let lossPct :=
    (if 0 <? expected
     then inject_Z (Z.abs (actual - expected)) / inject_Z expected * 100
     else 0)%Q in
  evaluate quantity (Returned probeRate) baselineRate thresholds =
  Ok (if (quantity <? dustThreshold thresholds)
         && gt inflationFactor (inflationAlarmFactor thresholds)
      then DustInflated (Qred inflationFactor) actual
      else if gt lossPct (precisionLossAlarmPct thresholds)
           then PrecisionLoss (Qred lossPct)
           else Normal (Qred inflationFactor)).
Proof.
  intros Hq Hb inflationFactor expected actual lossPct.
  unfold evaluate, real_inflation_factor, voting_power.
  destruct (Z.eqb_spec quantity 0) as [E | _]; [contradiction |].
  rewrite quotient_ok by exact Hb. cbn [bind].
  rewrite gt_Qred. fold inflationFactor.
  destruct ((quantity <? dustThreshold thresholds)
            && gt inflationFactor (inflationAlarmFactor thresholds)).
  - reflexivity.
  - cbv zeta. change WAD with (10 ^ 18). fold expected actual.
    rewrite real_loss_pct_value. cbn [bind]. fold lossPct.
    rewrite gt_Qred. now destruct (gt lossPct (precisionLossAlarmPct thresholds)).
Qed.

(** ** The tests against the detector *)

(** A view that reverts ends each probe of the tests in its handler,
    whatever the amount. *)
Lemma revert_observed_alike (census : Census) (amount : Z) :
  observe (squid_lp_equivalent census amount) = Reverts ->
  dust_protection_probe census amount = AmountReverted
  /\ precision_loss_probe census amount = AmountFailed
  /\ fst (edge_case_probe census amount) = ViewFailed.
Proof.
  intros H. split; [| split].
  - now apply dust_protection_probe_reverted.
  - now apply precision_loss_probe_reverted.
  - unfold edge_case_probe. cbn [fst].
    destruct (squid_lp_equivalent census amount); [discriminate | reflexivity].
Qed.

Lemma Qlt_100_quotient (a b : Z) :
  0 < b -> 100 * b < a -> (100 < inject_Z a / inject_Z b)%Q.
Proof.
  intros Hb H. apply Qlt_shift_div_l.
  - change 0%Q with (inject_Z 0). now rewrite <- Zlt_Qlt.
  - change 100%Q with (inject_Z 100).
    now rewrite <- inject_Z_mult, <- Zlt_Qlt.
Qed.

(** Every vulnerability that the dust-attack test confirms is a
    [DustInflated] verdict of the detector, with the same voting power. *)
Theorem confirmed_vulnerability_is_dust_inflated
    (census : Census) (standard : Z) (factor : F64.float) (power expected : Z) :
  0 < standard ->
  (forall rate, squill_lp_equivalent census 1 = Ok rate -> 0 <= rate) ->
  squill_dust_attack census standard
  = CriticalVulnerabilityConfirmed factor power expected ->
  exists f,
    evaluate 1 (observe (squill_lp_equivalent census 1)) standard
             default_thresholds
    = Ok (DustInflated f power)
    /\ (100 < f)%Q.
Proof.
  intros Hs Hrate. unfold squill_dust_attack.
  destruct (squill_lp_equivalent census 1) as [rate |] eqn:Ecall;
    [| discriminate].
  specialize (Hrate rate eq_refl). cbn [bind observe].
  destruct (F64.int_truediv rate standard) as [x |] eqn:Ex; [| discriminate].
  rewrite !floordiv_WAD. cbn [bind].
  destruct (F64.int_truediv rate WAD); [| discriminate].
  destruct (F64.int_truediv standard WAD); [| discriminate].
  cbn [bind try_except].
  destruct (F64.gt_int x 100) eqn:Egt; [| discriminate].
  intros [= <- <- <-].
  assert (Hlt := float_alarm_sound rate standard x Hrate Hs Ex Egt).
  apply Qlt_100_quotient in Hlt; [| exact Hs].
  rewrite evaluate_returned by lia.
  replace (gt (inject_Z rate / inject_Z standard)
              (inflationAlarmFactor default_thresholds)) with true
    by (symmetry; apply gt_true; exact Hlt).
  cbn [dustThreshold default_thresholds Z.ltb Z.compare Pos.compare
       Pos.compare_cont andb].
  rewrite <- floordiv_is_truncation by lia.
  eexists. split; [reflexivity |]. now rewrite Qred_correct.
Qed.

Lemma confirmed_vulnerability_example :
  exists f,
    evaluate 1 (Returned (5162271 * 10 ^ 18)) (126445 * 10 ^ 14)
             default_thresholds
    = Ok (DustInflated f 5162271)
    /\ (100 < f)%Q.
Proof.
  apply (confirmed_vulnerability_is_dust_inflated
           {| squid_lp_equivalent := fun _ => Raise ContractRevert;
              squill_lp_equivalent := fun amount =>
                if amount =? 1 then Ok (5162271 * 10 ^ 18)
                else Ok (126445 * 10 ^ 14) |}
           (126445 * 10 ^ 14)
           (S754_finite false 7013890661738848 (-34)) 5162271 12).
  - reflexivity.
  - intros rate H. vm_compute in H. injection H as <-.
    vm_compute. discriminate.
  - vm_compute. reflexivity.
Qed.

(** The converse fails where rounding reaches the alarm factor itself:
    here the exact quotient is 100 + 10^-19 and the float is 100.0. *)
Lemma float_factor_rounds_at_threshold :
  let census := {| squid_lp_equivalent := fun _ => Raise ContractRevert;
                   squill_lp_equivalent := fun amount =>
                     if amount =? 1 then Ok (10 ^ 21 + 1) else Ok (10 ^ 19) |} in
  squill_dust_attack census (10 ^ 19)
  = NoSignificantInflation (F64.small_int 100) 1000 10
  /\ evaluate 1 (Returned (10 ^ 21 + 1)) (10 ^ 19) default_thresholds
     = Ok (DustInflated (100 + (1 # 10 ^ 19)) 1000).
Proof.
  split; vm_compute; reflexivity.
Qed.

(** ** Claims about the detector *)

(** C2, as stated, fails on the tests: the threshold test probes
    10,000,001, above its dust threshold, and reports a reverting read
    there with the finding it gives for 9,999,999, below the threshold.
    The detector of the specification tells the two apart; no finding of
    the tests does. *)
Lemma unexpected_revert_not_distinguished :
  let census := {| squid_lp_equivalent := fun _ => Raise ContractRevert;
                   squill_lp_equivalent := fun _ => Raise ContractRevert |} in
  dust_threshold <= 10000001
  /\ In 10000001 bypass_test_amounts
  /\ observe (squid_lp_equivalent census 10000001) = Reverts
  /\ ~ (dust_protection_probe census 10000001
        <> dust_protection_probe census 9999999)
  /\ evaluate 10000001 Reverts 12644500000000000000 default_thresholds
     <> evaluate 9999999 Reverts 12644500000000000000 default_thresholds.
Proof.
  split; [vm_compute; discriminate |].
  split; [vm_compute; tauto |].
  split; [reflexivity |].
  split; [intros H; now apply H | discriminate].
Qed.

(** C2, amended.  A read that reverts for a quantity at or above the dust
    threshold is reported by the tests as a revert below the threshold
    is: the handler of each probe ignores the quantity.  In particular
    the threshold test reports 10,000,001 with a reverting read as it
    reports 9,999,999. *)
Theorem revert_at_or_above_threshold
    (census : Census) (quantity below : Z) :
  dust_threshold <= quantity -> below < dust_threshold ->
  observe (squid_lp_equivalent census quantity) = Reverts ->
  observe (squid_lp_equivalent census below) = Reverts ->
  dust_protection_probe census quantity = AmountReverted
  /\ dust_protection_probe census quantity = dust_protection_probe census below
  /\ precision_loss_probe census quantity = precision_loss_probe census below
  /\ fst (edge_case_probe census quantity) = fst (edge_case_probe census below).
Proof.
  intros _ _ Hq Hb.
  destruct (revert_observed_alike census quantity Hq) as (H1 & H2 & H3).
  destruct (revert_observed_alike census below Hb) as (H1' & H2' & H3').
  rewrite H1, H2, H3, H1', H2', H3'. now repeat split.
Qed.

Lemma revert_at_or_above_threshold_witness :
  let census := {| squid_lp_equivalent := fun _ => Raise ContractRevert;
                   squill_lp_equivalent := fun _ => Raise ContractRevert |} in
  dust_protection_probe census 10000001 = AmountReverted
  /\ dust_protection_probe census 10000001
     = dust_protection_probe census 9999999
  /\ precision_loss_probe census 10000001
     = precision_loss_probe census 9999999
  /\ fst (edge_case_probe census 10000001)
     = fst (edge_case_probe census 9999999).
Proof.
  intros census.
  apply (revert_at_or_above_threshold census 10000001 9999999).
  - vm_compute. discriminate.
  - reflexivity.
  - reflexivity.
  - reflexivity.
Defined.

(** C3.  A probe reported as reverted with [quantity < dustThreshold]
    gets the verdict [Reverted]; in particular quantity 9,999,999 with a
    reverting probe yields [Reverted]. *)
Theorem revert_below_threshold
    (quantity baselineRate : Z) (thresholds : ThresholdSet) :
  quantity < dustThreshold thresholds ->
  evaluate quantity Reverts baselineRate thresholds = Ok Reverted
  /\ evaluate 9999999 Reverts baselineRate default_thresholds = Ok Reverted.
Proof.
  intros H. split.
  - now apply evaluate_reverts_below.
  - now apply evaluate_reverts_below.
Qed.

Lemma revert_below_threshold_witness :
  evaluate 9999999 Reverts 12644500000000000000 default_thresholds = Ok Reverted
  /\ evaluate 9999999 Reverts 12644500000000000000 default_thresholds
     = Ok Reverted.
Proof.
  apply (revert_below_threshold 9999999 12644500000000000000 default_thresholds).
  reflexivity.
Defined.

(** C4.  For a probe that returned, with [quantity = 0]: whatever the
    probe rate, the baseline rate and the thresholds, [evaluate] returns
    [Normal] with evidence 0.  (The edge-case demonstration reports the
    zero quantity as returning 0.) *)
Theorem zero_quantity_normal
    (probeRate baselineRate : Z) (thresholds : ThresholdSet) :
  evaluate 0 (Returned probeRate) baselineRate thresholds = Ok (Normal 0)
  /\ edge_case_result 0 = ReturnsZero.
Proof.
  split; [apply evaluate_zero | reflexivity].
Qed.

(** C6, as stated, fails at quantity 0: with equal rates the verdict is
    [Normal], but its evidence is 0, not the inflation factor 1. *)
Lemma equal_rates_zero_quantity_evidence :
  ~ (exists f,
       evaluate 0 (Returned 12644500000000000000) 12644500000000000000
                default_thresholds = Ok (Normal f)
       /\ (f == 1)%Q).
Proof.
  intros (f & Hf & H1). rewrite evaluate_zero in Hf.
  assert (E : f = 0%Q) by congruence.
  rewrite E in H1. discriminate H1.
Qed.

(** C6, amended.  For every quantity [> 0] (among them the dust threshold
    10,000,000 and 10^18) and every probe that returned with
    [probeRate = baselineRate > 0], [evaluate] returns [Normal] with
    inflation-factor evidence 1, under any thresholds with
    [inflationAlarmFactor >= 1] and [precisionLossAlarmPct >= 0], the
    default ones among them; at quantity 0 it returns [Normal] with
    evidence 0. *)
Theorem equal_rates_normal (quantity rate : Z) (thresholds : ThresholdSet) :
  0 <= quantity -> 0 < rate ->
  (1 <= inflationAlarmFactor thresholds)%Q ->
  (0 <= precisionLossAlarmPct thresholds)%Q ->
  evaluate quantity (Returned rate) rate thresholds
  = Ok (Normal (if quantity =? 0 then 0 else 1)).
Proof.
  intros Hq Hr Ha Hl.
  destruct (Z.eqb_spec quantity 0) as [-> | Hq0]; [apply evaluate_zero |].
  rewrite evaluate_returned by lia.
  assert (E1 : (inject_Z rate / inject_Z rate == 1)%Q).
  { apply Qmult_inv_r. change 0%Q with (inject_Z 0).
    rewrite inject_Z_injective. lia. }
  assert (Ered : Qred (inject_Z rate / inject_Z rate) = 1%Q).
  { rewrite (Qred_complete _ _ E1). reflexivity. }
  rewrite Ered.
  replace (gt (inject_Z rate / inject_Z rate) (inflationAlarmFactor thresholds))
    with false by (symmetry; apply gt_false; now rewrite E1).
  rewrite andb_false_r, Z.sub_diag.
  match goal with
  | |- Ok (if gt ?l _ then _ else _) = _ =>
      assert (El : (l == 0)%Q)
  end.
  { destruct (0 <? (quantity * rate) ÷ 10 ^ 18); [| reflexivity].
    cbn [Z.abs]. unfold Qdiv. now rewrite !Qmult_0_l. }
  match goal with
  | |- Ok (if ?c then _ else _) = _ =>
      replace c with false by (symmetry; apply gt_false; now rewrite El)
  end.
  reflexivity.
Qed.

Lemma equal_rates_normal_witness :
  evaluate 10000000 (Returned 12644500000000000000) 12644500000000000000
           default_thresholds
  = Ok (Normal (if 10000000 =? 0 then 0 else 1)).
Proof.
  apply (equal_rates_normal 10000000 12644500000000000000 default_thresholds).
  - vm_compute. discriminate.
  - reflexivity.
  - vm_compute. discriminate.
  - vm_compute. discriminate.
Defined.

(** C7.  For quantity 1, probe rate 5,162,271 x 10^18, baseline rate
    12.6445 x 10^18 and the default thresholds, [evaluate] returns
    [DustInflated]; the inflation factor is 5,162,271 / 12.6445, which
    lies between 408,262 and 408,263, within 0.03 percent of 408,160; the
    voting power is 5,162,271.  The dust-attack test reports the same for
    a contract that answers with these rates, and the demonstration's row
    for 1 wei carries the same voting power. *)
Theorem poc_scenario_dust_inflated :
  exists f,
    evaluate 1 (Returned (5162271 * 10 ^ 18)) (126445 * 10 ^ 14)
             default_thresholds
    = Ok (DustInflated f 5162271)
    /\ (f == 5162271 / (126445 # 10000))%Q
    /\ (408262 < f)%Q /\ (f < 408263)%Q
    /\ (Qabs (f - 408160) <= 408160 * (3 # 10000))%Q
    /\ (let census :=
          {| squid_lp_equivalent := fun _ => Raise ContractRevert;
             squill_lp_equivalent := fun amount =>
               if amount =? 1 then Ok (5162271 * 10 ^ 18)
               else Ok (126445 * 10 ^ 14) |} in
        exists x,
          squill_dust_attack census (126445 * 10 ^ 14)
          = CriticalVulnerabilityConfirmed x 5162271 12
          /\ F64.gt_int x 408262 = true /\ F64.gt_int x 408263 = false)
    /\ dust_iteration (false, []) 1
       = (true, [VulnerabilityAlert 1 5162271;
                 DustRow 1 (Vulnerable 5162271) false]).
Proof.
  eexists. split; [vm_compute; reflexivity |].
  split; [reflexivity |].
  split; [reflexivity |].
  split; [reflexivity |].
  split; [vm_compute; discriminate |].
  split; [| reflexivity].
  eexists. split; [vm_compute; reflexivity |].
  split; reflexivity.
Qed.

(** ** The demonstrations *)

Lemma dust_loop_keeps_found (amounts : list Z) (printed : list dust_event) :
  fst (dust_loop amounts (true, printed)) = true.
Proof.
  revert printed. induction amounts as [| amount rest IH]; intros printed.
  - reflexivity.
  - cbn [dust_loop fold_left dust_iteration].
    destruct (amount =? 1); apply IH.
Qed.

(** Whatever the list of dust amounts, having 1 wei in it sets the flag. *)
Lemma dust_loop_finds (amounts : list Z) (state : bool * list dust_event) :
  In 1 amounts -> fst (dust_loop amounts state) = true.
Proof.
  revert state. induction amounts as [| amount rest IH]; intros [found printed] Hin.
  - contradiction.
  - cbn [dust_loop fold_left]. destruct Hin as [-> | Hin].
    + apply dust_loop_keeps_found.
    + apply IH. exact Hin.
Qed.

Lemma summary_iteration_critical (results : list (string * bool * string)) :
  fold_left summary_iteration results true = true.
Proof.
  induction results as [| [[name executed] severity] rest IH].
  - reflexivity.
  - cbn [fold_left summary_iteration].
    destruct (String.eqb severity "CRITICAL"); exact IH.
Qed.

(** C9.  [demonstrate_dust_attack_poc] takes no input and returns [True]:
    its [dust_amounts] contain 1, whose branch sets
    [vulnerability_found].  So [main] records the dust attack with
    severity CRITICAL, finds a critical result and returns exit
    status 1. *)
Theorem dust_poc_found_and_exit_status :
  In 1 dust_amounts
  /\ fst demonstrate_dust_attack_poc = true
  /\ exists s,
       main = Ok s
       /\ In ("Dust Attack Vulnerability"%string, true, "CRITICAL"%string)
             (poc_results s)
       /\ critical_found s = true
       /\ exit_status s = 1.
Proof.
  assert (Hin : In 1 dust_amounts) by (left; reflexivity).
  assert (Hfound : fst demonstrate_dust_attack_poc = true).
  { unfold demonstrate_dust_attack_poc.
    assert (H := dust_loop_finds dust_amounts (false, []) Hin).
    destruct (dust_loop dust_amounts (false, [])) as [found printed].
    exact H. }
  split; [exact Hin | split; [exact Hfound |]].
  unfold main. rewrite Hfound.
  destruct demonstrate_balance_calculation_poc as [balance |] eqn:Hb;
    [| vm_compute in Hb; discriminate Hb].
  cbn [bind]. eexists. split; [reflexivity |].
  cbn [poc_results critical_found exit_status].
  split; [left; reflexivity |].
  assert (Hc : fold_left summary_iteration
                 [("Dust Attack Vulnerability"%string, true, "CRITICAL"%string);
                  ("Balance Calculation Accuracy"%string, fst balance, "PASS"%string);
                  ("LP Equivalent Edge Cases"%string,
                   fst demonstrate_lp_equivalent_edge_cases, "PASS"%string);
                  ("Census Functionality"%string,
                   fst demonstrate_census_functionality_poc, "PASS"%string)]
                 false = true).
  { cbn [fold_left]. change (summary_iteration false _) with true.
    exact (summary_iteration_critical
             [("Balance Calculation Accuracy"%string, fst balance, "PASS"%string);
              ("LP Equivalent Edge Cases"%string,
               fst demonstrate_lp_equivalent_edge_cases, "PASS"%string);
              ("Census Functionality"%string,
               fst demonstrate_census_functionality_poc, "PASS"%string)]). }
  rewrite Hc. split; reflexivity.
Qed.

Lemma balance_iteration_accurate (entry : string * string) :
  exists row,
    balance_iteration entry = Ok row
    /\ voter row = fst entry
    /\ F64.is_finite (expected_total row) = true
    /\ actual_total row = expected_total row
    /\ difference row = S754_zero false
    /\ status row = Accurate.
Proof.
  destruct entry as [addr description]. eexists.
  split; [vm_compute; reflexivity |].
  repeat split.
Qed.

(** C10.  In [demonstrate_balance_calculation_poc], for every voter,
    [actual_total] is [expected_total], the difference computed is 0, the
    voter is reported as accurate, and the function returns [True]. *)
Theorem balance_poc_always_accurate :
  exists rows,
    demonstrate_balance_calculation_poc = Ok (true, rows)
    /\ map voter rows = map fst test_voters
    /\ Forall (fun row =>
                 actual_total row = expected_total row
                 /\ difference row
                    = F64.abs (F64.sub (actual_total row) (expected_total row))
                 /\ difference row = S754_zero false
                 /\ status row = Accurate) rows.
Proof.
  unfold demonstrate_balance_calculation_poc, balance_loop.
  assert (Hrows : forall voters,
            exists rows,
              mapM balance_iteration voters = Ok rows
              /\ map voter rows = map fst voters
              /\ Forall (fun row =>
                           actual_total row = expected_total row
                           /\ difference row
                              = F64.abs (F64.sub (actual_total row)
                                                 (expected_total row))
                           /\ difference row = S754_zero false
                           /\ status row = Accurate) rows).
  { induction voters as [| entry rest (rows & Hm & Hv & Hf)].
    - exists []. repeat split. constructor.
    - destruct (balance_iteration_accurate entry)
        as (row & Hr & Hvoter & Hfin & Hact & Hdiff & Hst).
      exists (row :: rows). cbn [mapM]. rewrite Hr, Hm. cbn [bind map].
      split; [reflexivity |].
      split; [now rewrite Hvoter, Hv |].
      constructor; [| exact Hf].
      repeat split; try assumption.
      rewrite Hact, float_sub_self by exact Hfin. exact Hdiff. }
  destruct (Hrows test_voters) as (rows & Hm & Hv & Hf).
  exists rows. rewrite Hm. cbn [bind]. now repeat split.
Qed.

(** * Further properties *)

(** ** Division in range *)

Lemma digits_below_range (m e : Z) :
  0 <= m -> e <= 971 -> m <= 2 ^ (1023 - e) ->
  fexp F64.prec F64.emax (Zdigits2 m + e) <= 971.
Proof.
  intros Hm He Hle.
  assert (Hd : Zdigits2 m <= 1024 - e).
  { apply Zdigits2_le; [exact Hm | lia |].
    replace (1024 - e) with (Z.succ (1023 - e)) by lia.
    rewrite Z.pow_succ_r by lia.
    assert (0 < 2 ^ (1023 - e)) by (apply Z.pow_pos_nonneg; lia). lia. }
  unfold fexp, emin, F64.prec, F64.emax. lia.
Qed.

Lemma shr_fexp_in_range (m e : Z) (l : location) (N D : Z) :
  F64.brackets (shr_record_of_loc m l) N D ->
  e <= 971 -> N <= 2 ^ (1023 - e) * D ->
  exists D',
    F64.brackets (fst (shr_fexp F64.prec F64.emax m e l)) N D'
    /\ snd (shr_fexp F64.prec F64.emax m e l) <= 971
    /\ N <= 2 ^ (1023 - snd (shr_fexp F64.prec F64.emax m e l)) * D'.
Proof.
  intros Hb He HN.
  assert (Hm : 0 <= m /\ m <= 2 ^ (1023 - e)).
  { destruct Hb as (HD & Hm & Hb & _). rewrite shr_m_of_loc in Hm, Hb.
    split; [exact Hm |].
    assert (0 < 2 ^ (1023 - e)) by (apply Z.pow_pos_nonneg; lia). nia. }
  assert (Hf := digits_below_range m e (proj1 Hm) He (proj2 Hm)).
  unfold shr_fexp, shr.
  destruct (fexp F64.prec F64.emax (Zdigits2 m + e) - e) as [| p | p] eqn:En;
    cbn [fst snd].
  - exists D. split; [exact Hb | split; [exact He | exact HN]].
  - exists (2 ^ Zpos p * D). split; [| split].
    + now apply iter_shr_1_brackets.
    + lia.
    + replace (1023 - e) with (1023 - (e + Zpos p) + Zpos p) in HN by lia.
      rewrite Z.pow_add_r in HN by lia. lia.
  - exists D. split; [exact Hb | split; [exact He | exact HN]].
Qed.

Lemma binary_round_aux_finite (sx : bool) (m e : Z) (l : location) (N D : Z) :
  F64.brackets (shr_record_of_loc m l) N D ->
  e <= 971 -> N <= 2 ^ (1023 - e) * D ->
  F64.is_finite (binary_round_aux F64.prec F64.emax sx m e l) = true.
Proof.
  intros Hb He HN. unfold binary_round_aux.
  destruct (shr_fexp_in_range m e l N D Hb He HN) as (D1 & Hb1 & He1 & HN1).
  destruct (shr_fexp F64.prec F64.emax m e l) as [mrs1 e1]. cbn [fst snd] in *.
  assert (Hr := round_nearest_even_below mrs1 N D1 (2 ^ (1023 - e1)) Hb1 HN1).
  set (m1 := round_nearest_even (shr_m mrs1) (loc_of_shr_record mrs1)) in *.
  assert (Hb2 : F64.brackets (shr_record_of_loc m1 loc_Exact) m1 1).
  { unfold F64.brackets. cbn [shr_record_of_loc shr_m shr_r shr_s orb].
    repeat split; lia. }
  destruct (shr_fexp_in_range m1 e1 loc_Exact m1 1 Hb2 He1 ltac:(lia))
    as (D2 & Hb3 & He2 & HN2).
  destruct (shr_fexp F64.prec F64.emax m1 e1 loc_Exact) as [mrs2 e2].
  cbn [fst snd] in *.
  destruct Hb3 as (_ & Hm2 & _).
  destruct (shr_m mrs2) as [| p | p]; [reflexivity | | lia].
  replace (e2 <=? F64.emax - F64.prec) with true
    by (symmetry; apply Z.leb_le; unfold F64.emax, F64.prec; lia).
  reflexivity.
Qed.

(** [a / b] returns whenever the quotient is at most 2^1023. *)
Lemma int_truediv_returns (a b : Z) :
  0 <= a -> 0 < b -> a <= 2 ^ 1023 * b ->
  exists x, F64.int_truediv a b = Ok x /\ F64.is_finite x = true.
Proof.
  intros Ha Hb Hle. unfold F64.int_truediv.
  destruct (Z.eqb_spec b 0) as [E | _]; [lia |].
  destruct b as [| pb | pb]; try lia.
  destruct a as [| pa | pa]; try lia.
  { eexists. split; reflexivity. }
  cbn [F64.mantissa_of SFdiv xorb]. unfold SFdiv_core_binary.
  set (e' := Z.min (fexp F64.prec F64.emax
                      (Zdigits2 (Zpos pa) + 0 - (Zdigits2 (Zpos pb) + 0)))
                   (0 - 0)).
  assert (He : e' <= 0) by (unfold e'; lia).
  assert (Hfin : forall q r,
            Z.div_eucl (Zpos pa * 2 ^ (- e')) (Zpos pb) = (q, r) ->
            F64.is_finite (binary_round_aux F64.prec F64.emax false q e'
                             (new_location (Zpos pb) r)) = true).
  { intros q r Hqr.
    assert (HN : 0 <= Zpos pa * 2 ^ (- e')).
    { assert (0 < 2 ^ (- e')) by (apply Z.pow_pos_nonneg; lia). nia. }
    assert (Hbr := div_eucl_brackets (Zpos pa * 2 ^ (- e')) (Zpos pb) HN
                     ltac:(lia)).
    rewrite Hqr in Hbr. cbn [fst snd] in Hbr.
    apply (binary_round_aux_finite false q e' _ _ _ Hbr); [lia |].
    replace (1023 - e') with (1023 + - e') by lia.
    rewrite Z.pow_add_r by lia.
    assert (0 < 2 ^ (- e')) by (apply Z.pow_pos_nonneg; lia). nia. }
  assert (Hm' : match 0 - 0 - e' with
                | 0 => Zpos pa
                | Zpos _ => Z.shiftl (Zpos pa) (0 - 0 - e')
                | Zneg _ => 0
                end = Zpos pa * 2 ^ (- e')).
  { destruct (0 - 0 - e') as [| s | s] eqn:Es; try lia.
    - replace (- e') with 0 by lia. cbn. lia.
    - rewrite Z.shiftl_mul_pow2 by lia. f_equal. f_equal. lia. }
  rewrite Hm'.
  destruct (Z.div_eucl (Zpos pa * 2 ^ (- e')) (Zpos pb)) as [q r] eqn:Hqr.
  specialize (Hfin q r eq_refl).
  destruct (binary_round_aux F64.prec F64.emax false q e'
              (new_location (Zpos pb) r)) eqn:Ex;
    try discriminate Hfin; eexists; split; reflexivity.
Qed.

(** ** Rounding above the alarm factor *)

Lemma Zdigits2_lower (m : Z) : 0 < m -> 2 ^ (Zdigits2 m - 1) <= m.
Proof.
  intros Hm. destruct m as [| p | p]; try lia. cbn [Zdigits2].
  rewrite digits2_pos_size.
  assert (H := Pos.size_le p).
  apply Pos2Z.pos_le_pos in H. rewrite Pos2Z.inj_pow in H.
  change (Zpos p~0) with (2 * Zpos p) in H.
  replace (Zpos (Pos.size p)) with (Z.succ (Zpos (Pos.size p) - 1)) in H by lia.
  rewrite Z.pow_succ_r in H by lia. lia.
Qed.

Lemma Zdigits2_ge (m k : Z) : 0 <= k -> 2 ^ k <= m -> k + 1 <= Zdigits2 m.
Proof.
  intros Hk Hle.
  assert (Hm : 0 <= m).
  { assert (0 < 2 ^ k) by (apply Z.pow_pos_nonneg; lia). lia. }
  assert (Hg := Zdigits2_gt m Hm).
  destruct (Z.le_gt_cases (k + 1) (Zdigits2 m)) as [H | H]; [exact H |].
  exfalso.
  assert (2 ^ Zdigits2 m <= 2 ^ k).
  { apply Z.pow_le_mono_r; [lia |]. lia. }
  lia.
Qed.

Lemma round_nearest_even_ge (m : Z) (l : location) :
  m <= round_nearest_even m l.
Proof.
  destruct l as [| []]; cbn [round_nearest_even]; try lia.
  destruct (Z.even m); lia.
Qed.

Lemma pow2_pos (k : Z) : 0 <= k -> 0 < 2 ^ k.
Proof. intros Hk. apply Z.pow_pos_nonneg; lia. Qed.

Lemma shr_fexp_at_least (m e : Z) (l : location) (N D : Z) :
  F64.brackets (shr_record_of_loc m l) N D ->
  F64.at_least e N D ->
  e <= fexp F64.prec F64.emax (Zdigits2 m + e) ->
  exists D1,
    F64.brackets (fst (shr_fexp F64.prec F64.emax m e l)) N D1
    /\ F64.at_least (snd (shr_fexp F64.prec F64.emax m e l)) N D1
    /\ -46 <= snd (shr_fexp F64.prec F64.emax m e l)
    /\ 2 ^ 52 <= shr_m (fst (shr_fexp F64.prec F64.emax m e l)).
Proof.
  intros Hb Ha Hp.
  assert (Hb' := Hb). destruct Hb' as (HD & Hm & Hbr & _).
  rewrite shr_m_of_loc in Hm, Hbr.
  assert (Ha' := Ha). unfold F64.at_least, F64.next_above_100 in Ha'.
  change (100 * 2 ^ 46 + 1) with 7036874417766401 in Ha'.
  (* the mantissa has the digits of a value of at least 64 *)
  assert (Hd : -46 <= Zdigits2 m + e - 53 /\ 0 < m).
  { destruct (Z.le_gt_cases (-46) e) as [He | He].
    - assert (0 < m).
      { destruct (Z.eq_dec m 0) as [-> | Hn]; [| lia].
        cbn [Zdigits2] in Hp. unfold fexp, emin, F64.prec, F64.emax in Hp.
        lia. }
      unfold fexp, emin, F64.prec, F64.emax in Hp. lia.
    - rewrite (Z.max_l 0 (e + 46)) in Ha' by lia.
      rewrite (Z.max_r 0 (- (e + 46))) in Ha' by lia.
      change (2 ^ 0) with 1 in Ha'.
      assert (Hpow := pow2_pos (- (e + 46)) ltac:(lia)).
      assert (Hm6 : 2 ^ (6 - e) <= m).
      { replace (6 - e) with (52 + - (e + 46)) by lia.
        rewrite Z.pow_add_r by lia. change (2 ^ 52) with 4503599627370496.
        nia. }
      assert (Hdg := Zdigits2_ge m (6 - e) ltac:(lia) Hm6).
      assert (0 < 2 ^ (6 - e)) by (apply pow2_pos; lia). lia. }
  destruct Hd as [Hd Hmpos].
  assert (Hf : fexp F64.prec F64.emax (Zdigits2 m + e) = Zdigits2 m + e - 53).
  { unfold fexp, emin, F64.prec, F64.emax. lia. }
  assert (Hlow := Zdigits2_lower m Hmpos).
  rewrite Hf in Hp.
  unfold shr_fexp, shr. rewrite Hf.
  destruct (Zdigits2 m + e - 53 - e) as [| p | p] eqn:En; cbn [fst snd];
    [| | lia].
  - (* no shift: the mantissa has 53 digits *)
    exists D. split; [exact Hb | split; [exact Ha | split; [lia |]]].
    rewrite shr_m_of_loc. replace (Zdigits2 m - 1) with 52 in Hlow by lia.
    exact Hlow.
  - (* shift by [p = digits - 53] *)
    assert (Hs := iter_shr_1_brackets p _ N D Hb).
    set (mrs1 := iter_pos shr_1 p (shr_record_of_loc m l)) in *.
    exists (2 ^ Zpos p * D). split; [exact Hs | split; [| split; [lia |]]].
    + unfold F64.at_least, F64.next_above_100.
      change (100 * 2 ^ 46 + 1) with 7036874417766401.
      rewrite (Z.max_l 0 (- (e + Zpos p + 46))) by lia.
      rewrite (Z.max_r 0 (e + Zpos p + 46)) by lia.
      change (2 ^ 0) with 1.
      assert (Hpp := pow2_pos (Zpos p) ltac:(lia)).
      destruct (Z.le_gt_cases (-46) e) as [He | He].
      * rewrite (Z.max_l 0 (- (e + 46))) in Ha' by lia.
        rewrite (Z.max_r 0 (e + 46)) in Ha' by lia.
        change (2 ^ 0) with 1 in Ha'.
        replace (e + Zpos p + 46) with (e + 46 + Zpos p) by lia.
        rewrite Z.pow_add_r by lia. nia.
      * rewrite (Z.max_l 0 (e + 46)) in Ha' by lia.
        rewrite (Z.max_r 0 (- (e + 46))) in Ha' by lia.
        change (2 ^ 0) with 1 in Ha'.
        assert (E : 2 ^ Zpos p = 2 ^ (- (e + 46)) * 2 ^ (e + Zpos p + 46)).
        { rewrite <- Z.pow_add_r by lia. f_equal. lia. }
        assert (Hq := pow2_pos (e + Zpos p + 46) ltac:(lia)).
        rewrite E. nia.
    + destruct Hs as (_ & Hm1 & Hbr1 & _).
      assert (E : 2 ^ (Zdigits2 m - 1) = 2 ^ 52 * 2 ^ Zpos p).
      { rewrite <- Z.pow_add_r by lia. f_equal. lia. }
      rewrite E in Hlow.
      assert (Hpp := pow2_pos (Zpos p) ltac:(lia)).
      change (2 ^ 52) with 4503599627370496 in *. nia.
Qed.

Lemma above_100 (p : positive) (e : Z) :
  -46 <= e -> (e = -46 -> F64.next_above_100 <= Zpos p) ->
  SFltb (F64.small_int 100) (S754_finite false p e) = true.
Proof.
  intros He Hm.
  change (F64.small_int 100) with (S754_finite false 7036874417766400 (-46)).
  unfold SFltb, SFcompare.
  destruct (Z.compare_spec (-46) e) as [E | E | E]; [| reflexivity | lia].
  specialize (Hm (eq_sym E)). unfold F64.next_above_100 in Hm.
  change (100 * 2 ^ 46 + 1) with 7036874417766401 in Hm.
  rewrite Pos.compare_cont_spec. cbn [Pos.switch_Eq].
  destruct (Pos.compare_spec 7036874417766400 p) as [E' | E' | E'];
    [subst p; lia | reflexivity |].
  apply Pos2Z.pos_lt_pos in E'. lia.
Qed.

(** Rounding to nearest does not fall below the float next above 100. *)
Lemma binary_round_aux_above_100 (m e : Z) (l : location) (N D : Z) :
  F64.brackets (shr_record_of_loc m l) N D ->
  F64.at_least e N D ->
  e <= fexp F64.prec F64.emax (Zdigits2 m + e) ->
  forall x,
    F64.checked (binary_round_aux F64.prec F64.emax false m e l) = Ok x ->
    SFltb (F64.small_int 100) x = true.
Proof.
  intros Hb Ha Hp x. unfold binary_round_aux.
  destruct (shr_fexp_at_least m e l N D Hb Ha Hp) as (D1 & Hb1 & Ha1 & He1 & Hm1).
  destruct (shr_fexp F64.prec F64.emax m e l) as [mrs1 e1]. cbn [fst snd] in *.
  assert (Hge := round_nearest_even_ge (shr_m mrs1) (loc_of_shr_record mrs1)).
  set (m1 := round_nearest_even (shr_m mrs1) (loc_of_shr_record mrs1)) in *.
  assert (Hm1' : 2 ^ 52 <= m1) by lia.
  assert (Hb2 : F64.brackets (shr_record_of_loc m1 loc_Exact) m1 1).
  { unfold F64.brackets. cbn [shr_record_of_loc shr_m shr_r shr_s orb].
    change (2 ^ 52) with 4503599627370496 in Hm1'. repeat split; lia. }
  assert (Ha2 : F64.at_least e1 m1 1).
  { unfold F64.at_least, F64.next_above_100 in *.
    change (100 * 2 ^ 46 + 1) with 7036874417766401 in *.
    rewrite (Z.max_l 0 (- (e1 + 46))) in * by lia.
    rewrite (Z.max_r 0 (e1 + 46)) in * by lia.
    change (2 ^ 0) with 1 in *.
    destruct Hb1 as (HD1 & _ & Hbr1 & _).
    change (2 ^ 52) with 4503599627370496 in *.
    destruct (Z.eq_dec e1 (-46)) as [-> | Hne].
    - change (2 ^ (-46 + 46)) with 1 in *. nia.
    - replace (e1 + 46) with (Z.succ (e1 + 45)) by lia.
      rewrite Z.pow_succ_r by lia.
      assert (0 < 2 ^ (e1 + 45)) by (apply pow2_pos; lia). nia. }
  assert (Hp2 : e1 <= fexp F64.prec F64.emax (Zdigits2 m1 + e1)).
  { assert (Hdg := Zdigits2_ge m1 52 ltac:(lia) Hm1').
    unfold fexp, emin, F64.prec, F64.emax. lia. }
  destruct (shr_fexp_at_least m1 e1 loc_Exact m1 1 Hb2 Ha2 Hp2)
    as (D2 & Hb3 & Ha3 & He2 & Hm2).
  destruct (shr_fexp F64.prec F64.emax m1 e1 loc_Exact) as [mrs2 e2].
  cbn [fst snd] in *.
  change (2 ^ 52) with 4503599627370496 in Hm2.
  destruct (shr_m mrs2) as [| p2 | p2] eqn:Em2; try lia.
  destruct (e2 <=? F64.emax - F64.prec); cbn [F64.checked];
    [| discriminate].
  intros [= <-]. apply above_100; [exact He2 |].
  intros ->. unfold F64.at_least in Ha3.
  change (Z.max 0 (- (-46 + 46))) with 0 in Ha3.
  change (Z.max 0 (-46 + 46)) with 0 in Ha3. change (2 ^ 0) with 1 in Ha3.
  destruct Hb3 as (HD2 & _ & Hbr3 & _). rewrite Em2 in Hbr3.
  unfold F64.next_above_100 in *.
  change (100 * 2 ^ 46 + 1) with 7036874417766401 in *. nia.
Qed.

Lemma int_truediv_above_100 (a b : Z) (x : F64.float) :
  0 < b -> F64.next_above_100 * b <= a * 2 ^ 46 ->
  F64.int_truediv a b = Ok x -> F64.gt_int x 100 = true.
Proof.
  intros Hb Hle. unfold F64.next_above_100 in Hle.
  change (100 * 2 ^ 46 + 1) with 7036874417766401 in Hle.
  change (2 ^ 46) with 70368744177664 in Hle.
  unfold F64.int_truediv.
  destruct (Z.eqb_spec b 0) as [E | _]; [lia |].
  destruct b as [| pb | pb]; try lia.
  destruct a as [| pa | pa]; try lia.
  cbn [F64.mantissa_of SFdiv xorb]. unfold SFdiv_core_binary.
  set (d1 := Zdigits2 (Zpos pa)). set (d2 := Zdigits2 (Zpos pb)).
  assert (Hd2 : 0 < d2) by (unfold d2; cbn; lia).
  assert (Hb_lt := Zdigits2_gt (Zpos pb) ltac:(lia)). fold d2 in Hb_lt.
  assert (Hb_ge := Zdigits2_lower (Zpos pb) ltac:(lia)). fold d2 in Hb_ge.
  assert (Ha_ge := Zdigits2_lower (Zpos pa) ltac:(lia)). fold d1 in Ha_ge.
  assert (Hd : d2 + 6 <= d1).
  { assert (H64 : 2 ^ (d2 + 5) <= Zpos pa).
    { replace (d2 + 5) with (6 + (d2 - 1)) by lia.
      rewrite Z.pow_add_r by lia. change (2 ^ 6) with 64. nia. }
    assert (H := Zdigits2_ge (Zpos pa) (d2 + 5) ltac:(lia) H64).
    fold d1 in H. lia. }
  set (e' := Z.min (fexp F64.prec F64.emax (d1 + 0 - (d2 + 0))) (0 - 0)).
  assert (He' : e' = Z.min (d1 - d2 - 53) 0).
  { unfold e', fexp, emin, F64.prec, F64.emax. lia. }
  assert (Hm' : match 0 - 0 - e' with
                | 0 => Zpos pa
                | Zpos _ => Z.shiftl (Zpos pa) (0 - 0 - e')
                | Zneg _ => 0
                end = Zpos pa * 2 ^ (- e')).
  { destruct (0 - 0 - e') as [| s | s] eqn:Es; try lia.
    - replace (- e') with 0 by lia. cbn. lia.
    - rewrite Z.shiftl_mul_pow2 by lia. f_equal. f_equal. lia. }
  rewrite Hm'.
  assert (Hs := pow2_pos (- e') ltac:(lia)).
  assert (HN : 0 <= Zpos pa * 2 ^ (- e')) by nia.
  assert (Hbr := div_eucl_brackets (Zpos pa * 2 ^ (- e')) (Zpos pb) HN
                   ltac:(lia)).
  destruct (Z.div_eucl (Zpos pa * 2 ^ (- e')) (Zpos pb)) as [q r].
  cbn [fst snd] in Hbr.
  intros Hx. unfold F64.gt_int, F64.gtb.
  apply (binary_round_aux_above_100 q e' (new_location (Zpos pb) r)
           (Zpos pa * 2 ^ (- e')) (Zpos pb) Hbr); [| | exact Hx].
  - (* the quotient is at least the float next above 100 *)
    unfold F64.at_least, F64.next_above_100.
    change (100 * 2 ^ 46 + 1) with 7036874417766401.
    destruct (Z.le_gt_cases (-46) e') as [H46 | H46].
    + rewrite (Z.max_l 0 (- (e' + 46))) by lia.
      rewrite (Z.max_r 0 (e' + 46)) by lia. change (2 ^ 0) with 1.
      assert (E : 2 ^ (- e') * 2 ^ (e' + 46) = 70368744177664).
      { rewrite <- Z.pow_add_r by lia.
        replace (- e' + (e' + 46)) with 46 by lia. reflexivity. }
      assert (0 < 2 ^ (e' + 46)) by (apply pow2_pos; lia). nia.
    + rewrite (Z.max_l 0 (e' + 46)) by lia.
      rewrite (Z.max_r 0 (- (e' + 46))) by lia. change (2 ^ 0) with 1.
      replace (- e') with (46 + - (e' + 46)) by lia.
      rewrite Z.pow_add_r by lia. change (2 ^ 46) with 70368744177664.
      assert (0 < 2 ^ (- (e' + 46))) by (apply pow2_pos; lia). nia.
  - (* the quotient mantissa has at least [d1 - d2 - e'] digits *)
    assert (Hq : 2 ^ (d1 - d2 - 1 + - e') <= q).
    { destruct Hbr as (_ & Hq0 & Hbr & _). rewrite shr_m_of_loc in Hq0, Hbr.
      assert (E : 2 ^ (d1 - 1) * 2 ^ (- e')
                  = 2 ^ (d1 - d2 - 1 + - e') * 2 ^ d2).
      { rewrite <- !Z.pow_add_r by lia. f_equal. lia. }
      assert (0 < 2 ^ (d1 - d2 - 1 + - e')) by (apply pow2_pos; lia).
      nia. }
    assert (Hdq := Zdigits2_ge q (d1 - d2 - 1 + - e') ltac:(lia) Hq).
    unfold fexp, emin, F64.prec, F64.emax. lia.
Qed.

(** ** The alarm, exactly

    Between 100 and the float next above it the quotient is rounded to
    the nearer of the two, and to 100.0 on a tie: the mantissa of 100.0 is
    even. *)

Lemma new_location_compare (b r : Z) :
  new_location b r
  = if r =? 0 then loc_Exact else loc_Inexact (2 * r ?= b).
Proof.
  unfold new_location, new_location_even, new_location_odd.
  destruct (IntDef.Z.even b) eqn:Eb; [reflexivity |].
  destruct (r =? 0); [reflexivity |]. f_equal.
  change (IntDef.Z.even b) with (Z.even b) in Eb.
  assert (Hodd : Z.odd b = true) by (rewrite <- Z.negb_even, Eb; reflexivity).
  apply Z.odd_spec in Hodd. destruct Hodd as (k & ->).
  destruct (Z.compare_spec (2 * r + 1) (2 * k + 1)) as [E | E | E];
    destruct (Z.compare_spec (2 * r) (2 * k + 1)) as [E' | E' | E'];
    try reflexivity; lia.
Qed.

(** the division of two positive integers, as [SFdiv] sets it up *)
Lemma SFdiv_core_positive (pa pb : positive) :
  SFdiv_core_binary F64.prec F64.emax (Zpos pa) 0 (Zpos pb) 0
  = let e' := Z.min (fexp F64.prec F64.emax
                       (Zdigits2 (Zpos pa) - Zdigits2 (Zpos pb))) 0 in
    let '(q, r) := Z.div_eucl (Zpos pa * 2 ^ (- e')) (Zpos pb) in
    (q, e', new_location (Zpos pb) r).
Proof.
  unfold SFdiv_core_binary. cbv zeta.
  replace (Zdigits2 (Zpos pa) + 0 - (Zdigits2 (Zpos pb) + 0))
    with (Zdigits2 (Zpos pa) - Zdigits2 (Zpos pb)) by lia.
  change (0 - 0) with 0.
  set (e' := Z.min (fexp F64.prec F64.emax
                      (Zdigits2 (Zpos pa) - Zdigits2 (Zpos pb))) 0).
  assert (He : e' <= 0) by (unfold e'; lia).
  replace (match 0 - e' with
           | 0 => Zpos pa
           | Zpos _ => Z.shiftl (Zpos pa) (0 - e')
           | Zneg _ => 0
           end) with (Zpos pa * 2 ^ (- e')); [reflexivity |].
  destruct (0 - e') as [| s | s] eqn:Es; try lia.
  - replace (- e') with 0 by lia. cbn. lia.
  - rewrite Z.shiftl_mul_pow2 by lia. f_equal. f_equal. lia.
Qed.

Lemma int_truediv_next_to_100 (a b : Z) (x : F64.float) :
  0 < b ->
  100 * 2 ^ 46 * b < a * 2 ^ 46 < (100 * 2 ^ 46 + 1) * b ->
  F64.int_truediv a b = Ok x ->
  (F64.gt_int x 100 = true <-> (100 * 2 ^ 47 + 1) * b < a * 2 ^ 47).
Proof.
  change (100 * 2 ^ 46) with 7036874417766400.
  change (100 * 2 ^ 47 + 1) with 14073748835532801.
  change (2 ^ 46) with 70368744177664. change (2 ^ 47) with 140737488355328.
  intros Hb Hgap. unfold F64.int_truediv.
  destruct (Z.eqb_spec b 0) as [E | _]; [lia |].
  destruct b as [| pb | pb]; try lia.
  destruct a as [| pa | pa]; try lia.
  cbn [F64.mantissa_of SFdiv xorb]. rewrite SFdiv_core_positive. cbv zeta.
  set (d1 := Zdigits2 (Zpos pa)). set (d2 := Zdigits2 (Zpos pb)).
  assert (Hd2 : 0 < d2) by (unfold d2; cbn; lia).
  assert (Hb_lt := Zdigits2_gt (Zpos pb) ltac:(lia)). fold d2 in Hb_lt.
  assert (Hb_ge := Zdigits2_lower (Zpos pb) ltac:(lia)). fold d2 in Hb_ge.
  assert (Hlow : d2 + 6 <= d1).
  { assert (H64 : 2 ^ (d2 + 5) <= Zpos pa).
    { replace (d2 + 5) with (6 + (d2 - 1)) by lia.
      rewrite Z.pow_add_r by lia. change (2 ^ 6) with 64. nia. }
    assert (H := Zdigits2_ge (Zpos pa) (d2 + 5) ltac:(lia) H64).
    fold d1 in H. lia. }
  assert (Hup : d1 <= d2 + 7).
  { unfold d1. apply Zdigits2_le; [lia | lia |].
    replace (d2 + 7) with (7 + d2) by lia.
    rewrite Z.pow_add_r by lia. change (2 ^ 7) with 128. nia. }
  assert (He : fexp F64.prec F64.emax (d1 - d2) = d1 - d2 - 53).
  { unfold fexp, emin, F64.prec, F64.emax. lia. }
  rewrite He.
  assert (Hcase : d1 - d2 = 6 \/ d1 - d2 = 7) by lia.
  destruct Hcase as [-> | ->].
  - (* one more digit than the float has: the last one is rounded off *)
    change (Z.min (6 - 53) 0) with (-47).
    change (2 ^ (- -47)) with 140737488355328.
    assert (Hdm := Z_div_mod (Zpos pa * 140737488355328) (Zpos pb) ltac:(lia)).
    destruct (Z.div_eucl (Zpos pa * 140737488355328) (Zpos pb)) as [q r].
    destruct Hdm as [Eq Hr]. rewrite new_location_compare.
    assert (Hq : q = 14073748835532800 \/ q = 14073748835532801) by nia.
    destruct Hq as [-> | ->].
    + assert (Hr0 : r <> 0) by lia.
      apply Z.eqb_neq in Hr0. rewrite Hr0.
      destruct (2 * r ?= Zpos pb);
        (intros Hx; vm_compute in Hx; injection Hx as <-;
         split; [discriminate | intros H; exfalso; lia]).
    + destruct (Z.eqb_spec r 0) as [-> | Hr0].
      * intros Hx; vm_compute in Hx; injection Hx as <-.
        split; [discriminate | intros H; exfalso; lia].
      * destruct (2 * r ?= Zpos pb);
          (intros Hx; vm_compute in Hx; injection Hx as <-;
           split; [intros _; lia | reflexivity]).
  - (* the mantissa is 100 * 2^46: the remainder decides *)
    change (Z.min (7 - 53) 0) with (-46).
    change (2 ^ (- -46)) with 70368744177664.
    assert (Hdm := Z_div_mod (Zpos pa * 70368744177664) (Zpos pb) ltac:(lia)).
    destruct (Z.div_eucl (Zpos pa * 70368744177664) (Zpos pb)) as [q r].
    destruct Hdm as [Eq Hr]. rewrite new_location_compare.
    assert (Hq : q = 7036874417766400) by nia. subst q.
    assert (Hr0 : r <> 0) by lia.
    apply Z.eqb_neq in Hr0. rewrite Hr0.
    destruct (Z.compare_spec (2 * r) (Zpos pb)) as [E | E | E];
      intros Hx; vm_compute in Hx; injection Hx as <-.
    + split; [discriminate | intros H; exfalso; lia].
    + split; [discriminate | intros H; exfalso; lia].
    + split; [intros _; lia | reflexivity].
Qed.

(** [inflation_factor > 100] holds in binary64 exactly when the quotient
    exceeds 100 by more than [2^-47], half the distance to the next
    float. *)
Lemma int_truediv_gt_100_iff (a b : Z) (x : F64.float) :
  0 <= a -> 0 < b ->
  F64.int_truediv a b = Ok x ->
  (F64.gt_int x 100 = true <-> (100 * 2 ^ 47 + 1) * b < a * 2 ^ 47).
Proof.
  intros Ha Hb Hx.
  destruct (Z.le_gt_cases a (100 * b)) as [Hle | Hgt].
  - rewrite (int_truediv_below_100 a b x Ha Hb Hle Hx).
    change (100 * 2 ^ 47 + 1) with 14073748835532801.
    change (2 ^ 47) with 140737488355328.
    split; [discriminate | intros H; exfalso; lia].
  - destruct (Z.le_gt_cases (F64.next_above_100 * b) (a * 2 ^ 46))
      as [Hfar | Hnear].
    + rewrite (int_truediv_above_100 a b x Hb Hfar Hx).
      unfold F64.next_above_100 in Hfar.
      change (100 * 2 ^ 46 + 1) with 7036874417766401 in Hfar.
      change (2 ^ 46) with 70368744177664 in Hfar.
      change (100 * 2 ^ 47 + 1) with 14073748835532801.
      change (2 ^ 47) with 140737488355328.
      split; [intros _; lia | reflexivity].
    + apply (int_truediv_next_to_100 a b x Hb); [| exact Hx].
      unfold F64.next_above_100 in Hnear.
      change (100 * 2 ^ 46 + 1) with 7036874417766401 in *.
      change (100 * 2 ^ 46) with 7036874417766400.
      change (2 ^ 46) with 70368744177664 in *. lia.
Qed.

(** ** Rounding at a float

    Rounding to nearest does not cross a float: a value of at most
    [Cm * 2^Ce] is rounded to at most that, a value of at least
    [Cm * 2^Ce] to at least that. *)

Section RoundingAt.

Variables Cm Ce : Z.
Hypothesis Cm_range : 2 ^ 52 <= Cm < 2 ^ 53.
Hypothesis Ce_range : -1074 <= Ce <= 971.

Lemma digits_at_most (m e : Z) :
  0 <= m -> e <= Ce -> m <= Cm * 2 ^ (Ce - e) ->
  fexp F64.prec F64.emax (Zdigits2 m + e) <= Ce.
Proof.
  intros Hm He Hle.
  assert (Hd : Zdigits2 m <= 53 + (Ce - e)).
  { apply Zdigits2_le; [exact Hm | lia |].
    rewrite Z.pow_add_r by lia.
    assert (0 < 2 ^ (Ce - e)) by (apply pow2_pos; lia). nia. }
  unfold fexp, emin, F64.prec, F64.emax. lia.
Qed.

Lemma shr_fexp_at_most (m e : Z) (l : location) (N D : Z) :
  F64.brackets (shr_record_of_loc m l) N D ->
  e <= Ce -> N <= Cm * 2 ^ (Ce - e) * D ->
  exists D',
    F64.brackets (fst (shr_fexp F64.prec F64.emax m e l)) N D'
    /\ snd (shr_fexp F64.prec F64.emax m e l) <= Ce
    /\ N <= Cm * 2 ^ (Ce - snd (shr_fexp F64.prec F64.emax m e l)) * D'.
Proof.
  intros Hb He HN.
  assert (Hm : 0 <= m /\ m <= Cm * 2 ^ (Ce - e)).
  { destruct Hb as (HD & Hm & Hb & _). rewrite shr_m_of_loc in Hm, Hb.
    split; [exact Hm |].
    apply (Z.mul_le_mono_pos_r _ _ D); lia. }
  assert (Hf := digits_at_most m e (proj1 Hm) He (proj2 Hm)).
  unfold shr_fexp, shr.
  destruct (fexp F64.prec F64.emax (Zdigits2 m + e) - e) as [| p | p] eqn:En;
    cbn [fst snd].
  - exists D. split; [exact Hb | split; [exact He | exact HN]].
  - exists (2 ^ Zpos p * D). split; [| split].
    + now apply iter_shr_1_brackets.
    + lia.
    + replace (Ce - e) with (Ce - (e + Zpos p) + Zpos p) in HN by lia.
      rewrite Z.pow_add_r in HN by lia. lia.
  - exists D. split; [exact Hb | split; [exact He | exact HN]].
Qed.

Lemma round_at_most (m e : Z) (l : location) (N D : Z) :
  F64.brackets (shr_record_of_loc m l) N D ->
  e <= Ce -> N <= Cm * 2 ^ (Ce - e) * D ->
  binary_round_aux F64.prec F64.emax false m e l = S754_zero false
  \/ exists p e2,
       binary_round_aux F64.prec F64.emax false m e l = S754_finite false p e2
       /\ e2 <= Ce /\ Zpos p <= Cm * 2 ^ (Ce - e2).
Proof.
  intros Hb He HN. unfold binary_round_aux.
  destruct (shr_fexp_at_most m e l N D Hb He HN) as (D1 & Hb1 & He1 & HN1).
  destruct (shr_fexp F64.prec F64.emax m e l) as [mrs1 e1]. cbn [fst snd] in *.
  assert (Hr := round_nearest_even_below mrs1 N D1 (Cm * 2 ^ (Ce - e1)) Hb1 HN1).
  set (m1 := round_nearest_even (shr_m mrs1) (loc_of_shr_record mrs1)) in *.
  assert (Hb2 : F64.brackets (shr_record_of_loc m1 loc_Exact) m1 1).
  { unfold F64.brackets. cbn [shr_record_of_loc shr_m shr_r shr_s orb].
    repeat split; lia. }
  destruct (shr_fexp_at_most m1 e1 loc_Exact m1 1 Hb2 He1 ltac:(lia))
    as (D2 & Hb3 & He2 & HN2).
  destruct (shr_fexp F64.prec F64.emax m1 e1 loc_Exact) as [mrs2 e2].
  cbn [fst snd] in *.
  destruct Hb3 as (HD2 & Hm2 & Hb3 & _).
  destruct (shr_m mrs2) as [| p | p] eqn:Em; [now left | | lia].
  right. exists p, e2.
  replace (e2 <=? F64.emax - F64.prec) with true
    by (symmetry; apply Z.leb_le; unfold F64.emax, F64.prec; lia).
  split; [reflexivity | split; [exact He2 |]].
  apply (Z.mul_le_mono_pos_r _ _ D2); lia.
Qed.

Lemma shr_fexp_reaches (m e : Z) (l : location) (N D : Z) :
  F64.brackets (shr_record_of_loc m l) N D ->
  F64.reaches Cm Ce e N D ->
  e <= fexp F64.prec F64.emax (Zdigits2 m + e) ->
  exists D1,
    F64.brackets (fst (shr_fexp F64.prec F64.emax m e l)) N D1
    /\ F64.reaches Cm Ce (snd (shr_fexp F64.prec F64.emax m e l)) N D1
    /\ Ce <= snd (shr_fexp F64.prec F64.emax m e l)
    /\ 2 ^ 52 <= shr_m (fst (shr_fexp F64.prec F64.emax m e l)).
Proof.
  intros Hb Ha Hp.
  assert (Hb' := Hb). destruct Hb' as (HD & Hm & Hbr & _).
  rewrite shr_m_of_loc in Hm, Hbr.
  assert (Ha' := Ha). unfold F64.reaches in Ha'.
  assert (H52 : 0 < 2 ^ 52) by reflexivity.
  (* the mantissa has the digits of a value of at least [2^(52 + Ce)] *)
  assert (Hd : Ce <= Zdigits2 m + e - 53 /\ 0 < m).
  { destruct (Z.le_gt_cases Ce e) as [He | He].
    - rewrite (Z.max_l 0 (Ce - e)) in Ha' by lia.
      rewrite (Z.max_r 0 (e - Ce)) in Ha' by lia.
      change (2 ^ 0) with 1 in Ha'.
      destruct (Z.eq_dec e (-1074)) as [E | E].
      + assert (ECe : Ce = e) by lia. rewrite ECe, Z.sub_diag in Ha'.
        change (2 ^ 0) with 1 in Ha'.
        assert (Hm52 : 2 ^ 52 <= m) by nia.
        assert (Hdg := Zdigits2_ge m 52 ltac:(lia) Hm52). lia.
      + assert (Hmpos : 0 < m).
        { destruct (Z.eq_dec m 0) as [-> | Hn]; [| lia].
          cbn [Zdigits2] in Hp. unfold fexp, emin, F64.prec, F64.emax in Hp.
          lia. }
        unfold fexp, emin, F64.prec, F64.emax in Hp. lia.
    - rewrite (Z.max_l 0 (e - Ce)) in Ha' by lia.
      rewrite (Z.max_r 0 (Ce - e)) in Ha' by lia.
      change (2 ^ 0) with 1 in Ha'.
      assert (Hpow := pow2_pos (Ce - e) ltac:(lia)).
      assert (Hm6 : 2 ^ (52 + (Ce - e)) <= m).
      { rewrite Z.pow_add_r by lia.
        assert (H1 : Cm * 2 ^ (Ce - e) * D < (m + 1) * D) by lia.
        apply Z.mul_lt_mono_pos_r in H1; [| lia].
        assert (2 ^ 52 * 2 ^ (Ce - e) <= Cm * 2 ^ (Ce - e))
          by (apply Z.mul_le_mono_nonneg_r; lia).
        lia. }
      assert (Hdg := Zdigits2_ge m (52 + (Ce - e)) ltac:(lia) Hm6).
      assert (0 < 2 ^ (52 + (Ce - e))) by (apply pow2_pos; lia). lia. }
  destruct Hd as [Hd Hmpos].
  assert (Hf : fexp F64.prec F64.emax (Zdigits2 m + e) = Zdigits2 m + e - 53).
  { unfold fexp, emin, F64.prec, F64.emax. lia. }
  assert (Hlow := Zdigits2_lower m Hmpos).
  rewrite Hf in Hp.
  unfold shr_fexp, shr. rewrite Hf.
  destruct (Zdigits2 m + e - 53 - e) as [| p | p] eqn:En; cbn [fst snd];
    [| | lia].
  - (* no shift: the mantissa has 53 digits *)
    exists D. split; [exact Hb | split; [exact Ha | split; [lia |]]].
    rewrite shr_m_of_loc. replace (Zdigits2 m - 1) with 52 in Hlow by lia.
    exact Hlow.
  - (* shift by [p = digits - 53] *)
    assert (Hs := iter_shr_1_brackets p _ N D Hb).
    set (mrs1 := iter_pos shr_1 p (shr_record_of_loc m l)) in *.
    exists (2 ^ Zpos p * D). split; [exact Hs | split; [| split; [lia |]]].
    + unfold F64.reaches.
      rewrite (Z.max_l 0 (Ce - (e + Zpos p))) by lia.
      rewrite (Z.max_r 0 (e + Zpos p - Ce)) by lia.
      change (2 ^ 0) with 1.
      assert (Hpp := pow2_pos (Zpos p) ltac:(lia)).
      destruct (Z.le_gt_cases Ce e) as [He | He].
      * rewrite (Z.max_l 0 (Ce - e)) in Ha' by lia.
        rewrite (Z.max_r 0 (e - Ce)) in Ha' by lia.
        change (2 ^ 0) with 1 in Ha'.
        replace (e + Zpos p - Ce) with (e - Ce + Zpos p) by lia.
        rewrite Z.pow_add_r by lia. nia.
      * rewrite (Z.max_l 0 (e - Ce)) in Ha' by lia.
        rewrite (Z.max_r 0 (Ce - e)) in Ha' by lia.
        change (2 ^ 0) with 1 in Ha'.
        assert (E : 2 ^ Zpos p = 2 ^ (Ce - e) * 2 ^ (e + Zpos p - Ce)).
        { rewrite <- Z.pow_add_r by lia. f_equal. lia. }
        assert (Hq := pow2_pos (e + Zpos p - Ce) ltac:(lia)).
        rewrite E. nia.
    + destruct Hs as (_ & Hm1 & Hbr1 & _).
      assert (E : 2 ^ (Zdigits2 m - 1) = 2 ^ 52 * 2 ^ Zpos p).
      { rewrite <- Z.pow_add_r by lia. f_equal. lia. }
      rewrite E in Hlow.
      assert (Hpp := pow2_pos (Zpos p) ltac:(lia)).
      assert (Hlt : 2 ^ 52 * (2 ^ Zpos p * D) < (shr_m mrs1 + 1) * (2 ^ Zpos p * D)) by nia.
      apply Z.mul_lt_mono_pos_r in Hlt; lia.
Qed.

Lemma round_reaches (m e : Z) (l : location) (N D : Z) :
  F64.brackets (shr_record_of_loc m l) N D ->
  F64.reaches Cm Ce e N D ->
  e <= fexp F64.prec F64.emax (Zdigits2 m + e) ->
  binary_round_aux F64.prec F64.emax false m e l = S754_infinity false
  \/ exists p e2,
       binary_round_aux F64.prec F64.emax false m e l = S754_finite false p e2
       /\ Ce <= e2 /\ Cm <= Zpos p * 2 ^ (e2 - Ce).
Proof.
  intros Hb Ha Hp. unfold binary_round_aux.
  assert (H52 : 2 ^ 52 = 4503599627370496) by reflexivity.
  assert (H53 : 2 ^ 53 = 9007199254740992) by reflexivity.
  (* a mantissa of 53 digits that brackets the value reaches [Cm] *)
  assert (Hreach : forall k n D' M,
            0 <= k -> 0 < D' -> 2 ^ 52 <= n ->
            Cm * D' <= M * 2 ^ k -> M < (n + 1) * D' -> Cm <= n * 2 ^ k).
  { intros k n D' M Hk HD' Hn H1 H2.
    assert (Hpk := pow2_pos k Hk).
    assert (H3 : Cm * D' < (n + 1) * 2 ^ k * D') by nia.
    apply Z.mul_lt_mono_pos_r in H3; [| exact HD'].
    destruct (Z.eq_dec k 0) as [-> | Hk0].
    - change (2 ^ 0) with 1 in *. lia.
    - assert (2 <= 2 ^ k).
      { change 2 with (2 ^ 1) at 1. apply Z.pow_le_mono_r; lia. }
      nia. }
  destruct (shr_fexp_reaches m e l N D Hb Ha Hp) as (D1 & Hb1 & Ha1 & He1 & Hm1).
  destruct (shr_fexp F64.prec F64.emax m e l) as [mrs1 e1]. cbn [fst snd] in *.
  assert (Hge := round_nearest_even_ge (shr_m mrs1) (loc_of_shr_record mrs1)).
  set (m1 := round_nearest_even (shr_m mrs1) (loc_of_shr_record mrs1)) in *.
  assert (Hm1' : 2 ^ 52 <= m1) by lia.
  assert (Hb2 : F64.brackets (shr_record_of_loc m1 loc_Exact) m1 1).
  { unfold F64.brackets. cbn [shr_record_of_loc shr_m shr_r shr_s orb].
    repeat split; lia. }
  assert (Ha2 : F64.reaches Cm Ce e1 m1 1).
  { unfold F64.reaches in *.
    rewrite (Z.max_l 0 (Ce - e1)) in * by lia.
    rewrite (Z.max_r 0 (e1 - Ce)) in * by lia.
    change (2 ^ 0) with 1 in *.
    destruct Hb1 as (HD1 & _ & Hbr1 & _).
    assert (H := Hreach (e1 - Ce) (shr_m mrs1) D1 N ltac:(lia) HD1 Hm1
                   ltac:(lia) ltac:(lia)).
    assert (Hpk := pow2_pos (e1 - Ce) ltac:(lia)). nia. }
  assert (Hp2 : e1 <= fexp F64.prec F64.emax (Zdigits2 m1 + e1)).
  { assert (Hdg := Zdigits2_ge m1 52 ltac:(lia) Hm1').
    unfold fexp, emin, F64.prec, F64.emax. lia. }
  destruct (shr_fexp_reaches m1 e1 loc_Exact m1 1 Hb2 Ha2 Hp2)
    as (D2 & Hb3 & Ha3 & He2 & Hm2).
  destruct (shr_fexp F64.prec F64.emax m1 e1 loc_Exact) as [mrs2 e2].
  cbn [fst snd] in *.
  destruct (shr_m mrs2) as [| p2 | p2] eqn:Em2; try lia.
  destruct (e2 <=? F64.emax - F64.prec); [| now left].
  right. exists p2, e2. split; [reflexivity | split; [exact He2 |]].
  unfold F64.reaches in Ha3.
  rewrite (Z.max_l 0 (Ce - e2)) in Ha3 by lia.
  rewrite (Z.max_r 0 (e2 - Ce)) in Ha3 by lia.
  change (2 ^ 0) with 1 in Ha3.
  destruct Hb3 as (HD2 & _ & Hbr3 & _). rewrite Em2 in Hbr3.
  exact (Hreach (e2 - Ce) (Zpos p2) D2 m1 ltac:(lia) HD2 Hm2
           ltac:(lia) ltac:(lia)).
Qed.

(** *** Quotients of integers *)

Lemma SFdiv_at_most (pa pb : positive) :
  Ce <= 0 -> Zpos pa * 2 ^ (- Ce) <= Cm * Zpos pb ->
  SFdiv F64.prec F64.emax (S754_finite false pa 0) (S754_finite false pb 0)
  = S754_zero false
  \/ exists p e2,
       SFdiv F64.prec F64.emax (S754_finite false pa 0) (S754_finite false pb 0)
       = S754_finite false p e2
       /\ e2 <= Ce /\ Zpos p <= Cm * 2 ^ (Ce - e2).
Proof.
  intros HCe Hle. cbn [SFdiv xorb]. rewrite SFdiv_core_positive. cbv zeta.
  set (d1 := Zdigits2 (Zpos pa)). set (d2 := Zdigits2 (Zpos pb)).
  assert (Hd2 : 0 < d2) by (unfold d2; cbn; lia).
  assert (Hb_lt := Zdigits2_gt (Zpos pb) ltac:(lia)). fold d2 in Hb_lt.
  assert (Hc := pow2_pos (- Ce) ltac:(lia)).
  assert (H53 : 2 ^ (53 + d2) = 2 ^ 53 * 2 ^ d2) by (apply Z.pow_add_r; lia).
  assert (Hlt : Zpos pa * 2 ^ (- Ce) < 2 ^ (53 + d2)) by nia.
  assert (Hk : 0 < d2 + 53 + Ce).
  { destruct (Z.lt_ge_cases 0 (d2 + 53 + Ce)) as [H | H]; [exact H |].
    assert (2 ^ (53 + d2) <= 2 ^ (- Ce)) by (apply Z.pow_le_mono_r; lia).
    nia. }
  assert (Hd : d1 <= d2 + 53 + Ce).
  { unfold d1. apply Zdigits2_le; [lia | lia |].
    assert (E : 2 ^ (53 + d2) = 2 ^ (d2 + 53 + Ce) * 2 ^ (- Ce)).
    { rewrite <- Z.pow_add_r by lia. f_equal. lia. }
    rewrite E in Hlt. apply Z.mul_lt_mono_pos_r in Hlt; lia. }
  set (e' := Z.min (fexp F64.prec F64.emax (d1 - d2)) 0).
  assert (He : e' <= Ce).
  { unfold e', fexp, emin, F64.prec, F64.emax. lia. }
  assert (Hs := pow2_pos (- e') ltac:(lia)).
  assert (HN : 0 <= Zpos pa * 2 ^ (- e')) by nia.
  assert (Hbr := div_eucl_brackets (Zpos pa * 2 ^ (- e')) (Zpos pb) HN
                   ltac:(lia)).
  destruct (Z.div_eucl (Zpos pa * 2 ^ (- e')) (Zpos pb)) as [q r].
  cbn [fst snd] in Hbr.
  apply (round_at_most q e' _ _ _ Hbr He).
  replace (- e') with (- Ce + (Ce - e')) by lia.
  rewrite Z.pow_add_r by lia.
  assert (0 < 2 ^ (Ce - e')) by (apply pow2_pos; lia). nia.
Qed.

Lemma SFdiv_reaches (pa pb : positive) :
  Ce <= 0 -> Cm * Zpos pb <= Zpos pa * 2 ^ (- Ce) ->
  SFdiv F64.prec F64.emax (S754_finite false pa 0) (S754_finite false pb 0)
  = S754_infinity false
  \/ exists p e2,
       SFdiv F64.prec F64.emax (S754_finite false pa 0) (S754_finite false pb 0)
       = S754_finite false p e2
       /\ Ce <= e2 /\ Cm <= Zpos p * 2 ^ (e2 - Ce).
Proof.
  intros HCe Hle. cbn [SFdiv xorb]. rewrite SFdiv_core_positive. cbv zeta.
  set (d1 := Zdigits2 (Zpos pa)). set (d2 := Zdigits2 (Zpos pb)).
  assert (Hd2 : 0 < d2) by (unfold d2; cbn; lia).
  assert (Hd1 : 0 < d1) by (unfold d1; cbn; lia).
  assert (Hb_ge := Zdigits2_lower (Zpos pb) ltac:(lia)). fold d2 in Hb_ge.
  assert (Hb_lt := Zdigits2_gt (Zpos pb) ltac:(lia)). fold d2 in Hb_lt.
  assert (Ha_ge := Zdigits2_lower (Zpos pa) ltac:(lia)). fold d1 in Ha_ge.
  assert (Ha_lt := Zdigits2_gt (Zpos pa) ltac:(lia)). fold d1 in Ha_lt.
  assert (Hc := pow2_pos (- Ce) ltac:(lia)).
  (* the quotient is at least [2^(52 + Ce)] *)
  assert (Hd : 52 + Ce <= d1 - d2).
  { destruct (Z.le_gt_cases (52 + Ce) (d1 - d2)) as [H | H]; [exact H |].
    exfalso.
    assert (H1 : 2 ^ (d1 - Ce) <= 2 ^ (51 + d2)) by (apply Z.pow_le_mono_r; lia).
    assert (E1 : 2 ^ (d1 - Ce) = 2 ^ d1 * 2 ^ (- Ce)).
    { rewrite <- Z.pow_add_r by lia. f_equal; lia. }
    assert (E2 : 2 ^ (51 + d2) = 2 ^ 52 * 2 ^ (d2 - 1)).
    { rewrite <- Z.pow_add_r by lia. f_equal. lia. }
    assert (0 < 2 ^ (d2 - 1)) by (apply pow2_pos; lia).
    assert (H2 : 2 ^ 52 * 2 ^ (d2 - 1) <= Cm * Zpos pb).
    { apply Z.mul_le_mono_nonneg; lia. }
    assert (H3 : Zpos pa * 2 ^ (- Ce) < 2 ^ d1 * 2 ^ (- Ce)).
    { apply Z.mul_lt_mono_pos_r; lia. }
    lia. }
  set (e' := Z.min (fexp F64.prec F64.emax (d1 - d2)) 0).
  assert (He' : e' = Z.min (Z.max (d1 - d2 - 53) (-1074)) 0).
  { unfold e', fexp, emin, F64.prec, F64.emax. lia. }
  assert (Hs := pow2_pos (- e') ltac:(lia)).
  assert (HN : 0 <= Zpos pa * 2 ^ (- e')) by nia.
  assert (Hbr := div_eucl_brackets (Zpos pa * 2 ^ (- e')) (Zpos pb) HN
                   ltac:(lia)).
  destruct (Z.div_eucl (Zpos pa * 2 ^ (- e')) (Zpos pb)) as [q r].
  cbn [fst snd] in Hbr.
  apply (round_reaches q e' _ _ _ Hbr).
  - unfold F64.reaches.
    destruct (Z.le_gt_cases e' Ce) as [H | H].
    + rewrite (Z.max_l 0 (e' - Ce)) by lia.
      rewrite (Z.max_r 0 (Ce - e')) by lia. change (2 ^ 0) with 1.
      replace (- e') with (- Ce + (Ce - e')) by lia.
      rewrite Z.pow_add_r by lia.
      assert (0 < 2 ^ (Ce - e')) by (apply pow2_pos; lia). nia.
    + rewrite (Z.max_l 0 (Ce - e')) by lia.
      rewrite (Z.max_r 0 (e' - Ce)) by lia. change (2 ^ 0) with 1.
      assert (E : 2 ^ (- e') * 2 ^ (e' - Ce) = 2 ^ (- Ce)).
      { rewrite <- Z.pow_add_r by lia. f_equal. lia. }
      nia.
  - (* the quotient mantissa has at least [d1 - d2 - e'] digits *)
    assert (Hq : 2 ^ (d1 - d2 - 1 + - e') <= q).
    { destruct Hbr as (_ & Hq0 & Hbr & _). rewrite shr_m_of_loc in Hq0, Hbr.
      assert (E : 2 ^ (d1 - 1) * 2 ^ (- e')
                  = 2 ^ (d1 - d2 - 1 + - e') * 2 ^ d2).
      { rewrite <- !Z.pow_add_r by lia. f_equal. lia. }
      assert (0 < 2 ^ (d1 - d2 - 1 + - e')) by (apply pow2_pos; lia).
      assert (H1 : 2 ^ (d1 - d2 - 1 + - e') * 2 ^ d2 < (q + 1) * 2 ^ d2) by nia.
      apply Z.mul_lt_mono_pos_r in H1; [lia |]. apply pow2_pos; lia. }
    assert (Hdq := Zdigits2_ge q (d1 - d2 - 1 + - e') ltac:(lia) Hq).
    unfold fexp, emin, F64.prec, F64.emax. lia.
Qed.

End RoundingAt.

(** ** The probes on contract answers *)

(** A value that the contract returns is a [uint256]; dividing it never
    overflows a float. *)
Lemma int_truediv_uint256 (a b : Z) :
  0 <= a < 2 ^ 256 -> 0 < b -> exists x, F64.int_truediv a b = Ok x.
Proof.
  intros Ha Hb.
  assert (Hp : 2 ^ 256 <= 2 ^ 1023) by (apply Z.pow_le_mono_r; lia).
  assert (Hq : 0 < 2 ^ 1023) by (apply pow2_pos; lia).
  destruct (int_truediv_returns a b) as (x & Hx & _); [lia | lia | nia |].
  now exists x.
Qed.

Lemma int_truediv_zero_divisor (a : Z) :
  F64.int_truediv a 0 = Raise ZeroDivisionError.
Proof. reflexivity. Qed.

(** X1.  No false alarm.  When the dust-attack test confirms a
    vulnerability, the 1 wei rate really exceeds 100 times the standard
    rate: rounding the quotient to a float cannot lift it over the alarm
    factor.  The voting powers reported are the floor-divided ones. *)
Theorem confirmed_alarm_exceeds_factor
    (census : Census) (standard rate : Z)
    (factor : F64.float) (power expected : Z) :
  0 < standard -> 0 <= rate ->
  squill_lp_equivalent census 1 = Ok rate ->
  squill_dust_attack census standard
  = CriticalVulnerabilityConfirmed factor power expected ->
  100 * standard < rate
  /\ power = rate / 10 ^ 18 /\ expected = standard / 10 ^ 18.
Proof.
  intros Hs Hr Hcall. unfold squill_dust_attack. rewrite Hcall. cbn [bind].
  destruct (F64.int_truediv rate standard) as [x |] eqn:Ex; [| discriminate].
  rewrite !floordiv_WAD. cbn [bind].
  destruct (F64.int_truediv rate WAD); [| discriminate].
  destruct (F64.int_truediv standard WAD); [| discriminate].
  cbn [bind try_except].
  destruct (F64.gt_int x 100) eqn:Egt; [| discriminate].
  intros H.
  assert (E1 : power = 1 * rate / 10 ^ 18) by congruence.
  assert (E2 : expected = 1 * standard / 10 ^ 18) by congruence.
  rewrite !Z.mul_1_l in E1, E2.
  split; [| now split].
  exact (float_alarm_sound rate standard x Hr Hs Ex Egt).
Qed.

Lemma confirmed_alarm_exceeds_factor_witness :
  100 * (126445 * 10 ^ 14) < 5162271 * 10 ^ 18
  /\ 5162271 = 5162271 * 10 ^ 18 / 10 ^ 18
  /\ 12 = 126445 * 10 ^ 14 / 10 ^ 18.
Proof.
  apply (confirmed_alarm_exceeds_factor
           {| squid_lp_equivalent := fun _ => Raise ContractRevert;
              squill_lp_equivalent := fun amount =>
                if amount =? 1 then Ok (5162271 * 10 ^ 18)
                else Ok (126445 * 10 ^ 14) |}
           (126445 * 10 ^ 14) (5162271 * 10 ^ 18)
           (S754_finite false 7013890661738848 (-34)) 5162271 12).
  - reflexivity.
  - vm_compute. discriminate.
  - reflexivity.
  - vm_compute. reflexivity.
Defined.

(** the normal form of the probe once the three divisions return *)
Lemma squill_dust_attack_in_range
    (census : Census) (standard rate : Z) :
  squill_lp_equivalent census 1 = Ok rate ->
  0 <= rate < 2 ^ 256 -> 0 < standard < 2 ^ 256 ->
  exists factor,
    F64.int_truediv rate standard = Ok factor
    /\ squill_dust_attack census standard =
       if F64.gt_int factor 100
       then CriticalVulnerabilityConfirmed
              factor (rate / 10 ^ 18) (standard / 10 ^ 18)
       else NoSignificantInflation
              factor (rate / 10 ^ 18) (standard / 10 ^ 18).
Proof.
  intros Hcall Hr Hs.
  destruct (int_truediv_uint256 rate standard Hr ltac:(lia)) as (x & Hx).
  destruct (int_truediv_uint256 rate WAD Hr ltac:(reflexivity)) as (y & Hy).
  destruct (int_truediv_uint256 standard WAD ltac:(lia) ltac:(reflexivity))
    as (z & Hz).
  exists x. split; [exact Hx |].
  exact (squill_dust_attack_returned census standard rate x y z Hcall Hx Hy Hz).
Qed.

(** X2.  For [uint256] answers and a non-zero standard rate, a 1 wei
    rate of at most 100 times the standard rate is reported as no
    significant inflation; the probe neither raises the alarm nor ends in
    its handler. *)
Theorem no_alarm_up_to_factor (census : Census) (standard rate : Z) :
  squill_lp_equivalent census 1 = Ok rate ->
  0 <= rate < 2 ^ 256 -> 0 < standard < 2 ^ 256 ->
  rate <= 100 * standard ->
  exists factor,
    squill_dust_attack census standard
    = NoSignificantInflation factor (rate / 10 ^ 18) (standard / 10 ^ 18).
Proof.
  intros Hcall Hr Hs Hle.
  destruct (squill_dust_attack_in_range census standard rate Hcall Hr Hs)
    as (x & Hx & ->).
  exists x.
  now rewrite (int_truediv_below_100 rate standard x ltac:(lia) ltac:(lia) Hle Hx).
Qed.

Lemma no_alarm_up_to_factor_witness :
  exists factor,
    squill_dust_attack
      {| squid_lp_equivalent := fun _ => Raise ContractRevert;
         squill_lp_equivalent := fun amount =>
           if amount =? 1 then Ok (100 * (126445 * 10 ^ 14))
           else Ok (126445 * 10 ^ 14) |}
      (126445 * 10 ^ 14)
    = NoSignificantInflation factor
        (100 * (126445 * 10 ^ 14) / 10 ^ 18) (126445 * 10 ^ 14 / 10 ^ 18).
Proof.
  apply (no_alarm_up_to_factor _ (126445 * 10 ^ 14) (100 * (126445 * 10 ^ 14))).
  - reflexivity.
  - split; [vm_compute; discriminate | reflexivity].
  - split; reflexivity.
  - vm_compute. discriminate.
Defined.

(** X3.  For [uint256] answers and a non-zero standard rate, the test
    confirms a vulnerability exactly when the 1 wei rate exceeds
    [100 + 2^-47] times the standard rate.  A rate above 100 times the
    standard rate by no more than that is rounded to 100.0 and passes as
    no significant inflation. *)
Theorem alarm_iff_beyond_half_ulp (census : Census) (standard rate : Z) :
  squill_lp_equivalent census 1 = Ok rate ->
  0 <= rate < 2 ^ 256 -> 0 < standard < 2 ^ 256 ->
  ((exists factor,
      squill_dust_attack census standard
      = CriticalVulnerabilityConfirmed
          factor (rate / 10 ^ 18) (standard / 10 ^ 18))
   <-> (100 * 2 ^ 47 + 1) * standard < rate * 2 ^ 47).
Proof.
  intros Hcall Hr Hs.
  destruct (squill_dust_attack_in_range census standard rate Hcall Hr Hs)
    as (x & Hx & ->).
  assert (Hiff := int_truediv_gt_100_iff rate standard x
                    ltac:(lia) ltac:(lia) Hx).
  destruct (F64.gt_int x 100).
  - split; [intros _; now apply Hiff | intros _; now exists x].
  - split; [intros (factor & H); discriminate |].
    intros H. apply Hiff in H. discriminate.
Qed.

(** the tie: a quotient of exactly [100 + 2^-47] raises no alarm *)
Lemma alarm_iff_beyond_half_ulp_witness :
  (exists factor,
     squill_dust_attack
       {| squid_lp_equivalent := fun _ => Raise ContractRevert;
          squill_lp_equivalent := fun amount =>
            if amount =? 1 then Ok (100 * 2 ^ 47 + 1) else Ok (2 ^ 47) |}
       (2 ^ 47)
     = CriticalVulnerabilityConfirmed
         factor ((100 * 2 ^ 47 + 1) / 10 ^ 18) (2 ^ 47 / 10 ^ 18))
  <-> (100 * 2 ^ 47 + 1) * 2 ^ 47 < (100 * 2 ^ 47 + 1) * 2 ^ 47.
Proof.
  apply (alarm_iff_beyond_half_ulp _ (2 ^ 47) (100 * 2 ^ 47 + 1)).
  - reflexivity.
  - split; [vm_compute; discriminate | reflexivity].
  - split; reflexivity.
Defined.

(** X4.  For [uint256] answers, the SQUILL probe reports a revert (the
    behaviour the test calls secure) exactly when the 1 wei read raises
    or the standard rate is 0: the division by a zero standard rate is
    absorbed by the same handler.  Likewise the SQUID probe. *)
Theorem dust_probes_handler_iff (census : Census) (standard : Z) :
  0 <= standard < 2 ^ 256 ->
  (forall rate, squill_lp_equivalent census 1 = Ok rate -> 0 <= rate < 2 ^ 256) ->
  (forall rate, squid_lp_equivalent census 1 = Ok rate -> 0 <= rate < 2 ^ 256) ->
  (squill_dust_attack census standard = FunctionReverted
   <-> (exists e, squill_lp_equivalent census 1 = Raise e) \/ standard = 0)
  /\ (squid_dust_comparison census standard = CorrectlyProtected
      <-> (exists e, squid_lp_equivalent census 1 = Raise e) \/ standard = 0).
Proof.
  intros Hs Hsquill Hsquid. split.
  - destruct (squill_lp_equivalent census 1) as [rate | e] eqn:Hcall.
    + specialize (Hsquill rate eq_refl).
      destruct (Z.eq_dec standard 0) as [-> | Hn].
      * split; [now right | intros _].
        apply squill_dust_attack_zero_standard.
      * destruct (squill_dust_attack_in_range census standard rate Hcall
                    Hsquill ltac:(lia)) as (x & _ & ->).
        split.
        -- now destruct (F64.gt_int x 100).
        -- intros [(e & He) | H0]; [discriminate | contradiction].
    + split; [intros _; left; now exists e |].
      intros _. unfold squill_dust_attack. now rewrite Hcall.
  - unfold squid_dust_comparison.
    destruct (squid_lp_equivalent census 1) as [rate | e] eqn:Hcall.
    + specialize (Hsquid rate eq_refl). cbn [bind].
      destruct (Z.eq_dec standard 0) as [-> | Hn].
      * split; [now right | reflexivity].
      * destruct (int_truediv_uint256 rate standard Hsquid ltac:(lia))
          as (x & ->).
        rewrite floordiv_WAD. cbn [bind try_except].
        split; [discriminate |].
        intros [(e & He) | H0]; [discriminate | contradiction].
    + split; [intros _; left; now exists e | reflexivity].
Qed.

Lemma dust_probes_handler_iff_witness :
  let census :=
    {| squid_lp_equivalent := fun _ => Raise ContractRevert;
       squill_lp_equivalent := fun _ => Ok (5162271 * 10 ^ 18) |} in
  (squill_dust_attack census 0 = FunctionReverted
   <-> (exists e, squill_lp_equivalent census 1 = Raise e) \/ 0 = 0)
  /\ (squid_dust_comparison census 0 = CorrectlyProtected
      <-> (exists e, squid_lp_equivalent census 1 = Raise e) \/ 0 = 0).
Proof.
  intros census. apply (dust_probes_handler_iff census 0).
  - split; [vm_compute; discriminate | reflexivity].
  - intros rate H. vm_compute in H. injection H as <-.
    split; [vm_compute; discriminate | reflexivity].
  - intros rate H. discriminate H.
Defined.

(** X5.  The dust-attack test as a whole returns exactly when its two
    baseline reads at 10^18 return: they are outside every [try] block,
    and whatever fails later is absorbed by the probes' handlers. *)
Theorem dust_attack_test_returns_iff (census : Census) :
  (forall v, squid_lp_equivalent census WAD = Ok v -> 0 <= v < 2 ^ 256) ->
  (forall v, squill_lp_equivalent census WAD = Ok v -> 0 <= v < 2 ^ 256) ->
  ((exists findings, test_poc_dust_attack_vulnerability census = Ok findings)
   <-> (exists a b, squid_lp_equivalent census WAD = Ok a
                    /\ squill_lp_equivalent census WAD = Ok b))
  /\ (forall a b,
        squid_lp_equivalent census WAD = Ok a ->
        squill_lp_equivalent census WAD = Ok b ->
        test_poc_dust_attack_vulnerability census
        = Ok (squill_dust_attack census b, squid_dust_comparison census a)).
Proof.
  intros Hsquid Hsquill.
  assert (Hret : forall a b,
            squid_lp_equivalent census WAD = Ok a ->
            squill_lp_equivalent census WAD = Ok b ->
            test_poc_dust_attack_vulnerability census
            = Ok (squill_dust_attack census b, squid_dust_comparison census a)).
  { intros a b Ha Hb. unfold test_poc_dust_attack_vulnerability.
    rewrite Ha, Hb. cbn [bind].
    destruct (int_truediv_uint256 a WAD (Hsquid a Ha) ltac:(reflexivity))
      as (x & ->).
    destruct (int_truediv_uint256 b WAD (Hsquill b Hb) ltac:(reflexivity))
      as (y & ->).
    reflexivity. }
  split; [| exact Hret]. split.
  - intros (findings & H). unfold test_poc_dust_attack_vulnerability in H.
    destruct (squid_lp_equivalent census WAD) as [a |]; [| discriminate].
    destruct (squill_lp_equivalent census WAD) as [b |]; [| discriminate].
    now exists a, b.
  - intros (a & b & Ha & Hb). eexists. exact (Hret a b Ha Hb).
Qed.

Lemma dust_attack_test_returns_iff_witness :
  let census :=
    {| squid_lp_equivalent := fun _ => Ok (126445 * 10 ^ 14);
       squill_lp_equivalent := fun amount =>
         if amount =? 1 then Ok (5162271 * 10 ^ 18)
         else Ok (126445 * 10 ^ 14) |} in
  (exists findings, test_poc_dust_attack_vulnerability census = Ok findings)
  <-> (exists a b, squid_lp_equivalent census WAD = Ok a
                   /\ squill_lp_equivalent census WAD = Ok b).
Proof.
  intros census. apply (dust_attack_test_returns_iff census).
  - intros v H. vm_compute in H. injection H as <-.
    split; [vm_compute; discriminate | reflexivity].
  - intros v H. vm_compute in H. injection H as <-.
    split; [vm_compute; discriminate | reflexivity].
Defined.

(** X6.  One [try] block covers both pools in the threshold test and in
    the precision test, so a reverting SQUID read hides what SQUILL
    answers for that amount; the edge-case test probes each pool in a
    block of its own and still reports the SQUILL answer. *)
Theorem squid_revert_hides_squill
    (census : Census) (amount squill_equiv : Z) (e : exn) :
  squid_lp_equivalent census amount = Raise e ->
  squill_lp_equivalent census amount = Ok squill_equiv ->
  dust_protection_probe census amount = AmountReverted
  /\ precision_loss_probe census amount = AmountFailed
  /\ edge_case_probe census amount = (ViewFailed, Equivalent squill_equiv).
Proof.
  intros Hsquid Hsquill.
  unfold dust_protection_probe, precision_loss_probe, edge_case_probe.
  rewrite Hsquid, Hsquill. repeat split.
Qed.

Lemma squid_revert_hides_squill_witness :
  let census :=
    {| squid_lp_equivalent := fun _ => Raise ContractRevert;
       squill_lp_equivalent := fun _ => Ok (5162271 * 10 ^ 18) |} in
  dust_protection_probe census 1 = AmountReverted
  /\ precision_loss_probe census 1 = AmountFailed
  /\ edge_case_probe census 1 = (ViewFailed, Equivalent (5162271 * 10 ^ 18)).
Proof.
  intros census.
  apply (squid_revert_hides_squill census 1 (5162271 * 10 ^ 18) ContractRevert);
    reflexivity.
Defined.

(** X7.  When both reads return [uint256] values, the threshold test
    reports them with the floor-divided voting powers, and its note
    depends on the amount alone: below 10,000,000 or not, never neither,
    whatever the rates are. *)
Theorem dust_protection_probe_measured
    (census : Census) (amount squid_equiv squill_equiv : Z) :
  squid_lp_equivalent census amount = Ok squid_equiv ->
  squill_lp_equivalent census amount = Ok squill_equiv ->
  0 <= squid_equiv < 2 ^ 256 -> 0 <= squill_equiv < 2 ^ 256 ->
  dust_protection_probe census amount
  = Measured squid_equiv squill_equiv
             (amount * squid_equiv / 10 ^ 18)
             (amount * squill_equiv / 10 ^ 18)
             (Some (if amount <? 10000000 then BelowDustThreshold
                    else AboveDustThreshold)).
Proof.
  intros Hsquid Hsquill Ha Hb. unfold dust_protection_probe.
  rewrite Hsquid, Hsquill. cbn [bind]. rewrite !floordiv_WAD. cbn [bind].
  destruct (int_truediv_uint256 squid_equiv WAD Ha ltac:(reflexivity))
    as (x & ->).
  destruct (int_truediv_uint256 squill_equiv WAD Hb ltac:(reflexivity))
    as (y & ->).
  cbn [bind try_except]. unfold dust_threshold.
  destruct (Z.ltb_spec amount 10000000) as [H | H]; [reflexivity |].
  destruct (Z.geb_spec amount 10000000) as [H' | H']; [reflexivity | lia].
Qed.

Lemma dust_protection_probe_measured_witness :
  let census :=
    {| squid_lp_equivalent := fun _ => Ok (126445 * 10 ^ 14);
       squill_lp_equivalent := fun _ => Ok (5162271 * 10 ^ 18) |} in
  dust_protection_probe census 1
  = Measured (126445 * 10 ^ 14) (5162271 * 10 ^ 18)
             (1 * (126445 * 10 ^ 14) / 10 ^ 18)
             (1 * (5162271 * 10 ^ 18) / 10 ^ 18)
             (Some (if 1 <? 10000000 then BelowDustThreshold
                    else AboveDustThreshold)).
Proof.
  intros census.
  apply (dust_protection_probe_measured census 1).
  - reflexivity.
  - reflexivity.
  - split; [vm_compute; discriminate | reflexivity].
  - split; [vm_compute; discriminate | reflexivity].
Defined.

(** X8.  The threshold test raises [IndexError] exactly when
    [voter_addresses] is empty, although the address it reads is never
    used; it raises nothing else, and otherwise reports its four amounts
    in order. *)
Theorem dust_protection_bypass_needs_voter
    (census : Census) (voter_addresses : list string) :
  (test_poc_dust_protection_bypass census voter_addresses = Raise IndexError
   <-> voter_addresses = [])
  /\ (forall e, test_poc_dust_protection_bypass census voter_addresses = Raise e
                -> e = IndexError)
  /\ (forall findings,
        test_poc_dust_protection_bypass census voter_addresses = Ok findings ->
        findings = map (dust_protection_probe census)
                       [9999999; 10000000; 10000001; 100000000]).
Proof.
  unfold test_poc_dust_protection_bypass.
  destruct voter_addresses as [| test_addr rest].
  - repeat split; try discriminate. intros e H. congruence.
  - repeat split; try discriminate. intros findings H.
    injection H as <-. reflexivity.
Qed.

(** ** The precision probe *)

Lemma mul_int_100 (x : F64.float) :
  F64.mul_int x 100 = Ok (F64.mul x (F64.small_int 100)).
Proof. reflexivity. Qed.

(** the probe once the four reads and the display division return *)
Lemma precision_loss_probe_returned
    (census : Census) (amount a b a1 b1 : Z) (shown : F64.float) :
  squid_lp_equivalent census amount = Ok a ->
  squill_lp_equivalent census amount = Ok b ->
  squid_lp_equivalent census WAD = Ok a1 ->
  squill_lp_equivalent census WAD = Ok b1 ->
  F64.int_truediv amount WAD = Ok shown ->
  forall squid_pct squill_pct,
    loss_pct_of (loss_of (amount * a / 10 ^ 18) (amount * a1 / 10 ^ 18))
                (amount * a1 / 10 ^ 18) = Ok squid_pct ->
    loss_pct_of (loss_of (amount * b / 10 ^ 18) (amount * b1 / 10 ^ 18))
                (amount * b1 / 10 ^ 18) = Ok squill_pct ->
    precision_loss_probe census amount =
    if F64.gtb squid_pct (F64.literal 1 100)
       || F64.gtb squill_pct (F64.literal 1 100)
    then PrecisionLossDetected
           (amount * a / 10 ^ 18) (amount * a1 / 10 ^ 18)
           (amount * b / 10 ^ 18) (amount * b1 / 10 ^ 18) squid_pct squill_pct
    else PrecisionAcceptable
           (amount * a / 10 ^ 18) (amount * a1 / 10 ^ 18)
           (amount * b / 10 ^ 18) (amount * b1 / 10 ^ 18) squid_pct squill_pct.
Proof.
  intros Ha Hb Ha1 Hb1 Hs squid_pct squill_pct Hp Hq.
  unfold precision_loss_probe.
  rewrite Ha, Hb. cbn [bind]. rewrite !floordiv_WAD. cbn [bind].
  rewrite Ha1, Hb1. cbn [bind]. rewrite !floordiv_WAD. cbn [bind].
  rewrite Hp. cbn [bind]. rewrite Hq. cbn [bind]. rewrite Hs.
  reflexivity.
Qed.

Lemma loss_pct_of_without_expectation (loss expected : Z) :
  expected <= 0 -> loss_pct_of loss expected = Ok (S754_zero false).
Proof.
  intros He. unfold loss_pct_of.
  destruct (Z.ltb_spec 0 expected); [lia | reflexivity].
Qed.

Lemma voting_power_range (amount rate : Z) :
  0 <= amount < 2 ^ 256 -> 0 <= rate < 2 ^ 256 ->
  0 <= amount * rate / 10 ^ 18 < 2 ^ 512.
Proof.
  intros Ha Hr.
  assert (E : 2 ^ 512 = 2 ^ 256 * 2 ^ 256) by (rewrite <- Z.pow_add_r; lia).
  assert (0 < 2 ^ 256) by (apply pow2_pos; lia).
  split.
  - apply Z.div_pos; [nia | reflexivity].
  - apply Z.div_lt_upper_bound; [reflexivity |].
    change (10 ^ 18) with 1000000000000000000. nia.
Qed.

Lemma loss_pct_of_returns (power expected : Z) :
  0 <= power < 2 ^ 512 -> 0 <= expected < 2 ^ 512 ->
  exists pct, loss_pct_of (loss_of power expected) expected = Ok pct.
Proof.
  intros Hp He. unfold loss_pct_of, loss_of.
  destruct (Z.ltb_spec 0 expected) as [H | H]; [| now eexists].
  assert (Hq : 2 ^ 512 <= 2 ^ 1023) by (apply Z.pow_le_mono_r; lia).
  assert (Hpos : 0 < 2 ^ 1023) by (apply pow2_pos; lia).
  destruct (int_truediv_returns (Z.abs (power - expected)) expected)
    as (x & -> & _); [lia | lia | nia |].
  cbn [bind]. rewrite mul_int_100. now eexists.
Qed.

(** X9.  When the four reads of the precision test return [uint256]
    values for a [uint256] amount, the probe does not fail: the guards
    [expected > 0] exclude a division by zero and no division overflows.
    It reports the floor-divided voting powers either way. *)
Theorem precision_probe_reports_in_range
    (census : Census) (amount a b a1 b1 : Z) :
  squid_lp_equivalent census amount = Ok a ->
  squill_lp_equivalent census amount = Ok b ->
  squid_lp_equivalent census WAD = Ok a1 ->
  squill_lp_equivalent census WAD = Ok b1 ->
  0 <= amount < 2 ^ 256 ->
  0 <= a < 2 ^ 256 -> 0 <= b < 2 ^ 256 ->
  0 <= a1 < 2 ^ 256 -> 0 <= b1 < 2 ^ 256 ->
  precision_loss_probe census amount <> AmountFailed
  /\ exists squid_pct squill_pct,
       precision_loss_probe census amount
       = PrecisionLossDetected
           (amount * a / 10 ^ 18) (amount * a1 / 10 ^ 18)
           (amount * b / 10 ^ 18) (amount * b1 / 10 ^ 18) squid_pct squill_pct
       \/ precision_loss_probe census amount
          = PrecisionAcceptable
              (amount * a / 10 ^ 18) (amount * a1 / 10 ^ 18)
              (amount * b / 10 ^ 18) (amount * b1 / 10 ^ 18)
              squid_pct squill_pct.
Proof.
  intros Ha Hb Ha1 Hb1 Hamount Ra Rb Ra1 Rb1.
  destruct (int_truediv_uint256 amount WAD Hamount ltac:(reflexivity))
    as (shown & Hs).
  destruct (loss_pct_of_returns _ _ (voting_power_range amount a Hamount Ra)
              (voting_power_range amount a1 Hamount Ra1)) as (p & Hp).
  destruct (loss_pct_of_returns _ _ (voting_power_range amount b Hamount Rb)
              (voting_power_range amount b1 Hamount Rb1)) as (q & Hq).
  rewrite (precision_loss_probe_returned census amount a b a1 b1 shown
             Ha Hb Ha1 Hb1 Hs p q Hp Hq).
  destruct (F64.gtb p (F64.literal 1 100) || F64.gtb q (F64.literal 1 100)).
  - split; [discriminate | exists p, q; now left].
  - split; [discriminate | exists p, q; now right].
Qed.

(** X10.  A contract whose rate for an amount equals its rate for one
    full LP token is reported as precise, with loss 0 for both pools. *)
Theorem precision_probe_accepts_proportional_rates
    (census : Census) (amount a b : Z) :
  squid_lp_equivalent census amount = Ok a ->
  squill_lp_equivalent census amount = Ok b ->
  squid_lp_equivalent census WAD = Ok a ->
  squill_lp_equivalent census WAD = Ok b ->
  0 <= amount < 2 ^ 256 ->
  precision_loss_probe census amount
  = PrecisionAcceptable
      (amount * a / 10 ^ 18) (amount * a / 10 ^ 18)
      (amount * b / 10 ^ 18) (amount * b / 10 ^ 18)
      (S754_zero false) (S754_zero false).
Proof.
  intros Ha Hb Ha1 Hb1 Hamount.
  destruct (int_truediv_uint256 amount WAD Hamount ltac:(reflexivity))
    as (shown & Hs).
  now rewrite (precision_loss_probe_returned census amount a b a b shown
                 Ha Hb Ha1 Hb1 Hs _ _ (loss_pct_of_equal _) (loss_pct_of_equal _)).
Qed.

(** X11.  When the expected voting power is 0 for both pools (amount
    times the unit rate below 10^18), the precision test reports
    acceptable precision with loss 0, whatever the actual voting powers
    are. *)
Theorem precision_probe_blind_without_expectation
    (census : Census) (amount a b a1 b1 : Z) :
  squid_lp_equivalent census amount = Ok a ->
  squill_lp_equivalent census amount = Ok b ->
  squid_lp_equivalent census WAD = Ok a1 ->
  squill_lp_equivalent census WAD = Ok b1 ->
  0 <= amount < 2 ^ 256 ->
  amount * a1 < 10 ^ 18 -> amount * b1 < 10 ^ 18 ->
  precision_loss_probe census amount
  = PrecisionAcceptable
      (amount * a / 10 ^ 18) (amount * a1 / 10 ^ 18)
      (amount * b / 10 ^ 18) (amount * b1 / 10 ^ 18)
      (S754_zero false) (S754_zero false).
Proof.
  intros Ha Hb Ha1 Hb1 Hamount Hea Heb.
  destruct (int_truediv_uint256 amount WAD Hamount ltac:(reflexivity))
    as (shown & Hs).
  assert (Hza : amount * a1 / 10 ^ 18 <= 0).
  { assert (amount * a1 / 10 ^ 18 < 1)
      by (apply Z.div_lt_upper_bound; [reflexivity | lia]). lia. }
  assert (Hzb : amount * b1 / 10 ^ 18 <= 0).
  { assert (amount * b1 / 10 ^ 18 < 1)
      by (apply Z.div_lt_upper_bound; [reflexivity | lia]). lia. }
  now rewrite (precision_loss_probe_returned census amount a b a1 b1 shown
                 Ha Hb Ha1 Hb1 Hs _ _
                 (loss_pct_of_without_expectation _ _ Hza)
                 (loss_pct_of_without_expectation _ _ Hzb)).
Qed.

(** ** The attack simulation and the oracle test *)

(** [voting_power > 1000] on a floor-divided rate *)
Lemma voting_power_above_1000 (dust : Z) :
  (dust / 10 ^ 18 >? 1000) = true <-> 1001 * 10 ^ 18 <= dust.
Proof.
  rewrite Z.gtb_ltb, Z.ltb_lt. split; intros H.
  - assert (H' : 1001 <= dust / 10 ^ 18) by lia.
    apply (Z.mul_le_mono_nonneg_r _ _ (10 ^ 18)) in H'; [| lia].
    assert (Hm := Z.mul_div_le dust (10 ^ 18) ltac:(reflexivity)). lia.
  - assert (1001 <= dust / 10 ^ 18); [| lia].
    apply Z.div_le_lower_bound; [reflexivity | lia].
Qed.

Lemma dust_attack_preparation_returned (census : Census) (dust normal : Z) :
  squill_lp_equivalent census 1 = Ok dust ->
  squill_lp_equivalent census WAD = Ok normal ->
  0 <= dust < 2 ^ 256 -> 0 <= normal < 2 ^ 256 ->
  dust_attack_preparation census
  = if normal =? 0 then None else Some (dust / 10 ^ 18).
Proof.
  intros Hd Hn Rd Rn. unfold dust_attack_preparation.
  cbv zeta. rewrite Hd, Hn. cbn [bind].
  destruct (Z.eqb_spec normal 0) as [-> | Hz]; [reflexivity |].
  destruct (int_truediv_uint256 dust normal Rd ltac:(lia)) as (x & ->).
  cbn [bind]. rewrite floordiv_WAD. cbn [bind try_except].
  now rewrite Z.mul_1_l.
Qed.

(** X12.  In the attack simulation, for [uint256] answers, the dust attack
    is viable exactly when the normal rate is not 0 and the 1 wei rate is
    at least 1001 * 10^18; the inflation factor plays no part, and a zero
    normal rate counts as a blocked attack.  The summary shows the voting
    power only when the attack is viable. *)
Theorem attack_viable_iff
    (census : Census) (prices : Oracle) (voter_addresses : list string)
    (dust normal : Z) :
  squill_lp_equivalent census 1 = Ok dust ->
  squill_lp_equivalent census WAD = Ok normal ->
  0 <= dust < 2 ^ 256 -> 0 <= normal < 2 ^ 256 ->
  let outcome :=
    test_poc_comprehensive_attack_simulation census prices voter_addresses in
  (attack_viable outcome = true <-> normal <> 0 /\ 1001 * 10 ^ 18 <= dust)
  /\ max_voting_power outcome
     = if attack_viable outcome then Some (dust / 10 ^ 18) else None.
Proof.
  intros Hd Hn Rd Rn outcome. unfold outcome.
  unfold test_poc_comprehensive_attack_simulation.
  cbn [attack_viable max_voting_power].
  rewrite (dust_attack_preparation_returned census dust normal Hd Hn Rd Rn).
  destruct (Z.eqb_spec normal 0) as [-> | Hz].
  - split; [| reflexivity]. split; [discriminate | intros [H _]; lia].
  - assert (Hiff := voting_power_above_1000 dust).
    split.
    + rewrite Hiff. split; [intros H; now split | intros [_ H]; exact H].
    + now destruct (dust / 10 ^ 18 >? 1000).
Qed.

Lemma oracle_assessment_returned (prices : Oracle) (squid eth : Z) :
  squid_price prices = Ok squid -> eth_price prices = Ok eth ->
  0 <= squid < 2 ^ 256 -> 0 <= eth < 2 ^ 256 ->
  oracle_assessment prices = true.
Proof.
  intros Hs He Rs Re. unfold oracle_assessment. rewrite Hs, He. cbn [bind].
  destruct (int_truediv_uint256 squid WAD Rs ltac:(reflexivity)) as (x & ->).
  destruct (int_truediv_uint256 eth WAD Re ltac:(reflexivity)) as (y & ->).
  reflexivity.
Qed.

(** X13.  Whenever the SQUID and ETH price reads return [uint256] values,
    the simulation marks the oracle vulnerable, so the threat level is
    CRITICAL if the dust attack is viable and HIGH otherwise, never
    LOW. *)
Theorem threat_level_with_readable_prices
    (census : Census) (prices : Oracle) (voter_addresses : list string)
    (squid eth : Z) :
  squid_price prices = Ok squid -> eth_price prices = Ok eth ->
  0 <= squid < 2 ^ 256 -> 0 <= eth < 2 ^ 256 ->
  let outcome :=
    test_poc_comprehensive_attack_simulation census prices voter_addresses in
  oracle_vulnerable outcome = true
  /\ threat_level outcome = (if attack_viable outcome then CRITICAL else HIGH)
  /\ threat_level outcome <> LOW.
Proof.
  intros Hs He Rs Re outcome. unfold outcome.
  unfold test_poc_comprehensive_attack_simulation.
  cbn [attack_viable oracle_vulnerable threat_level].
  rewrite (oracle_assessment_returned prices squid eth Hs He Rs Re).
  split; [reflexivity |].
  destruct (match dust_attack_preparation census with
            | Some voting_power => voting_power >? 1000
            | None => false
            end); cbn [andb orb]; split; try reflexivity; discriminate.
Qed.

(** X14.  When its five reads return [uint256] values, the oracle test
    reports exactly the values read: no display division fails. *)
Theorem oracle_test_reports_reads
    (census : Oracle) (eth squid squill squid_lp squill_lp : Z) :
  eth_price census = Ok eth ->
  squid_price census = Ok squid ->
  squill_price census = Ok squill ->
  squid_lp_equivalent_default census = Ok squid_lp ->
  squill_lp_equivalent_default census = Ok squill_lp ->
  0 <= eth < 2 ^ 256 -> 0 <= squid < 2 ^ 256 -> 0 <= squill < 2 ^ 256 ->
  0 <= squid_lp < 2 ^ 256 -> 0 <= squill_lp < 2 ^ 256 ->
  test_poc_oracle_manipulation_risk census
  = OracleAnalysed eth squid squill squid_lp squill_lp.
Proof.
  intros H1 H2 H3 H4 H5 R1 R2 R3 R4 R5.
  unfold test_poc_oracle_manipulation_risk.
  rewrite H1, H2, H3. cbn [bind].
  destruct (int_truediv_uint256 eth WAD R1 ltac:(reflexivity)) as (x1 & ->).
  destruct (int_truediv_uint256 squid WAD R2 ltac:(reflexivity)) as (x2 & ->).
  destruct (int_truediv_uint256 squill WAD R3 ltac:(reflexivity)) as (x3 & ->).
  cbn [bind]. rewrite H4, H5. cbn [bind].
  destruct (int_truediv_uint256 squid_lp WAD R4 ltac:(reflexivity)) as (x4 & ->).
  destruct (int_truediv_uint256 squill_lp WAD R5 ltac:(reflexivity)) as (x5 & ->).
  reflexivity.
Qed.

(** ** The demonstrations on any input *)

(** X15.  For any list of amounts, the loop of the dust demonstration
    returns the flag set exactly when it was set before or 1 is among the
    amounts, and prints, in order, an alert and a vulnerable row for each
    1 and a protected row for every other amount. *)
Theorem dust_loop_closed_form
    (amounts : list Z) (found : bool) (printed : list dust_event) :
  dust_loop amounts (found, printed)
  = (found || existsb (Z.eqb 1) amounts,
     printed ++
     flat_map (fun amount =>
                 if amount =? 1
                 then [VulnerabilityAlert 1 5162271;
                       DustRow 1 (Vulnerable 5162271) false]
                 else [DustRow amount SquillProtected true])
              amounts).
Proof.
  revert found printed.
  induction amounts as [| amount rest IH]; intros found printed.
  - cbn. now rewrite orb_false_r, app_nil_r.
  - cbn [dust_loop fold_left existsb flat_map]. unfold dust_loop in IH.
    unfold dust_iteration at 2.
    rewrite (Z.eqb_sym 1 amount).
    destruct (Z.eqb_spec amount 1) as [-> | Hne].
    + rewrite IH. cbn [orb negb Z.eqb Pos.eqb Z.mul Pos.mul].
      rewrite orb_true_r. now rewrite <- app_assoc.
    + rewrite IH. cbn [orb negb]. now rewrite <- app_assoc.
Qed.

(** X16.  The edge-case demonstration classifies a quantity by range:
    0 returns zero; any other quantity below the tests' dust threshold,
    negative ones included, is dust protected; from the threshold to below
    10^24 is a normal calculation; from 10^24 on, no overflow. *)
Theorem edge_case_result_ranges (quantity : Z) :
  (edge_case_result quantity = ReturnsZero <-> quantity = 0)
  /\ (edge_case_result quantity = DustProtected
      <-> quantity <> 0 /\ quantity < dust_threshold)
  /\ (edge_case_result quantity = NormalCalc
      <-> dust_threshold <= quantity < 10 ^ 24)
  /\ (edge_case_result quantity = NoOverflow <-> 10 ^ 24 <= quantity).
Proof.
  unfold edge_case_result, dust_threshold.
  change (10 ^ 24) with 1000000000000000000000000.
  destruct (Z.eqb_spec quantity 0) as [H0 | H0];
    [| destruct (Z.ltb_spec quantity 10000000) as [H1 | H1];
       [| destruct (Z.geb_spec quantity 1000000000000000000000000)
            as [H2 | H2]]];
    repeat split; try discriminate; try lia; intros; lia.
Qed.

Lemma balance_iteration_row (entry : string * string) :
  balance_iteration entry
  = Ok {| voter := fst entry;
          voter_description := snd entry;
          expected_total := S754_finite false 7706570434570312 17;
          actual_total := S754_finite false 7706570434570312 17;
          difference := S754_zero false;
          status := Accurate |}.
Proof.
  destruct entry as [addr description]. vm_compute. reflexivity.
Qed.

(** X17.  For any list of voters, the balance loop returns one row per
    voter, in order, with the voter's address and description, each with
    difference 0 and status accurate: no input makes it report a
    mismatch or raise. *)
Theorem balance_loop_any_voters (voters : list (string * string)) :
  exists rows,
    balance_loop voters = Ok rows
    /\ map voter rows = map fst voters
    /\ map voter_description rows = map snd voters
    /\ Forall (fun row => status row = Accurate
                          /\ difference row = S754_zero false) rows.
Proof.
  unfold balance_loop.
  induction voters as [| entry rest (rows & Hm & Hv & Hd & Hf)].
  - exists []. repeat split. constructor.
  - eexists. cbn [mapM]. rewrite balance_iteration_row, Hm. cbn [bind].
    split; [reflexivity |]. cbn [map voter voter_description].
    rewrite Hv, Hd. repeat split. constructor; [| exact Hf]. now split.
Qed.

Lemma precision_probe_reports_in_range_witness :
  let census :=
    {| squid_lp_equivalent := fun amount =>
         if amount =? 1 then Ok (5162271 * 10 ^ 18) else Ok (126445 * 10 ^ 14);
       squill_lp_equivalent := fun _ => Ok (126445 * 10 ^ 14) |} in
  precision_loss_probe census 1 <> AmountFailed
  /\ exists squid_pct squill_pct,
       precision_loss_probe census 1
       = PrecisionLossDetected
           (1 * (5162271 * 10 ^ 18) / 10 ^ 18) (1 * (126445 * 10 ^ 14) / 10 ^ 18)
           (1 * (126445 * 10 ^ 14) / 10 ^ 18) (1 * (126445 * 10 ^ 14) / 10 ^ 18)
           squid_pct squill_pct
       \/ precision_loss_probe census 1
          = PrecisionAcceptable
              (1 * (5162271 * 10 ^ 18) / 10 ^ 18)
              (1 * (126445 * 10 ^ 14) / 10 ^ 18)
              (1 * (126445 * 10 ^ 14) / 10 ^ 18)
              (1 * (126445 * 10 ^ 14) / 10 ^ 18)
              squid_pct squill_pct.
Proof.
  intros census.
  apply (precision_probe_reports_in_range census 1);
    try reflexivity; split; try reflexivity; vm_compute; discriminate.
Defined.

Lemma precision_probe_accepts_proportional_rates_witness :
  let census :=
    {| squid_lp_equivalent := fun _ => Ok (126445 * 10 ^ 14);
       squill_lp_equivalent := fun _ => Ok (126445 * 10 ^ 14) |} in
  precision_loss_probe census (10 ^ 9)
  = PrecisionAcceptable
      (10 ^ 9 * (126445 * 10 ^ 14) / 10 ^ 18)
      (10 ^ 9 * (126445 * 10 ^ 14) / 10 ^ 18)
      (10 ^ 9 * (126445 * 10 ^ 14) / 10 ^ 18)
      (10 ^ 9 * (126445 * 10 ^ 14) / 10 ^ 18)
      (S754_zero false) (S754_zero false).
Proof.
  intros census.
  apply (precision_probe_accepts_proportional_rates census (10 ^ 9));
    try reflexivity; split; try reflexivity; vm_compute; discriminate.
Defined.

Lemma precision_probe_blind_without_expectation_witness :
  let census :=
    {| squid_lp_equivalent := fun amount =>
         if amount =? 1 then Ok (5162271 * 10 ^ 18) else Ok (5 * 10 ^ 17);
       squill_lp_equivalent := fun amount =>
         if amount =? 1 then Ok (5162271 * 10 ^ 18) else Ok (5 * 10 ^ 17) |} in
  precision_loss_probe census 1
  = PrecisionAcceptable
      (1 * (5162271 * 10 ^ 18) / 10 ^ 18) (1 * (5 * 10 ^ 17) / 10 ^ 18)
      (1 * (5162271 * 10 ^ 18) / 10 ^ 18) (1 * (5 * 10 ^ 17) / 10 ^ 18)
      (S754_zero false) (S754_zero false).
Proof.
  intros census.
  apply (precision_probe_blind_without_expectation census 1);
    try reflexivity; split; try reflexivity; vm_compute; discriminate.
Defined.

Lemma attack_viable_iff_witness :
  let outcome :=
    test_poc_comprehensive_attack_simulation
      {| squid_lp_equivalent := fun _ => Raise ContractRevert;
         squill_lp_equivalent := fun amount =>
           if amount =? 1 then Ok (5162271 * 10 ^ 18)
           else Ok (126445 * 10 ^ 14) |}
      {| eth_price := Raise ContractRevert;
         squid_price := Raise ContractRevert;
         squill_price := Raise ContractRevert;
         squid_lp_equivalent_default := Raise ContractRevert;
         squill_lp_equivalent_default := Raise ContractRevert |}
      [] in
  (attack_viable outcome = true
   <-> 126445 * 10 ^ 14 <> 0 /\ 1001 * 10 ^ 18 <= 5162271 * 10 ^ 18)
  /\ max_voting_power outcome
     = if attack_viable outcome then Some (5162271 * 10 ^ 18 / 10 ^ 18)
       else None.
Proof.
  apply (attack_viable_iff _ _ [] (5162271 * 10 ^ 18) (126445 * 10 ^ 14));
    try reflexivity; split; try reflexivity; vm_compute; discriminate.
Defined.

Lemma threat_level_with_readable_prices_witness :
  let outcome :=
    test_poc_comprehensive_attack_simulation
      {| squid_lp_equivalent := fun _ => Raise ContractRevert;
         squill_lp_equivalent := fun _ => Raise ContractRevert |}
      {| eth_price := Ok (3000 * 10 ^ 18);
         squid_price := Ok (5 * 10 ^ 16);
         squill_price := Raise ContractRevert;
         squid_lp_equivalent_default := Raise ContractRevert;
         squill_lp_equivalent_default := Raise ContractRevert |}
      [] in
  oracle_vulnerable outcome = true
  /\ threat_level outcome = (if attack_viable outcome then CRITICAL else HIGH)
  /\ threat_level outcome <> LOW.
Proof.
  apply (threat_level_with_readable_prices _ _ [] (5 * 10 ^ 16) (3000 * 10 ^ 18));
    try reflexivity; split; try reflexivity; vm_compute; discriminate.
Defined.

Lemma oracle_test_reports_reads_witness :
  test_poc_oracle_manipulation_risk
    {| eth_price := Ok (3000 * 10 ^ 18);
       squid_price := Ok (5 * 10 ^ 16);
       squill_price := Ok (10 ^ 15);
       squid_lp_equivalent_default := Ok (126445 * 10 ^ 14);
       squill_lp_equivalent_default := Ok (126445 * 10 ^ 14) |}
  = OracleAnalysed (3000 * 10 ^ 18) (5 * 10 ^ 16) (10 ^ 15)
                   (126445 * 10 ^ 14) (126445 * 10 ^ 14).
Proof.
  apply oracle_test_reports_reads;
    try reflexivity; split; try reflexivity; vm_compute; discriminate.
Defined.

(** X18.  With the 1 wei rate equal to a non-zero [uint256] standard
    rate, the dust-attack test reports no inflation with factor exactly
    [1.0]. *)
Theorem equal_rates_factor_one (census : Census) (rate : Z) :
  squill_lp_equivalent census 1 = Ok rate ->
  0 < rate < 2 ^ 256 ->
  squill_dust_attack census rate
  = NoSignificantInflation (F64.small_int 1) (rate / 10 ^ 18) (rate / 10 ^ 18).
Proof.
  intros Hcall Hr.
  destruct (int_truediv_uint256 rate WAD ltac:(lia) ltac:(reflexivity))
    as (shown & Hs).
  exact (squill_dust_attack_equal_rates census rate shown ltac:(lia) Hcall Hs).
Qed.

Lemma equal_rates_factor_one_witness :
  squill_dust_attack
    {| squid_lp_equivalent := fun _ => Raise ContractRevert;
       squill_lp_equivalent := fun _ => Ok (126445 * 10 ^ 14) |}
    (126445 * 10 ^ 14)
  = NoSignificantInflation (F64.small_int 1)
      (126445 * 10 ^ 14 / 10 ^ 18) (126445 * 10 ^ 14 / 10 ^ 18).
Proof.
  apply equal_rates_factor_one;
    try reflexivity; split; reflexivity.
Defined.

(** X19.  With a normal rate of at least 10.01 * 10^18, a vulnerability
    that the dust-attack test confirms is a viable attack for the
    simulation, which shows the same voting power. *)
Theorem confirmed_alarm_implies_viable
    (census : Census) (prices : Oracle) (voter_addresses : list string)
    (dust normal : Z) (factor : F64.float) (power expected : Z) :
  squill_lp_equivalent census 1 = Ok dust ->
  squill_lp_equivalent census WAD = Ok normal ->
  0 <= dust < 2 ^ 256 -> 1001 * 10 ^ 16 <= normal < 2 ^ 256 ->
  squill_dust_attack census normal
  = CriticalVulnerabilityConfirmed factor power expected ->
  let outcome :=
    test_poc_comprehensive_attack_simulation census prices voter_addresses in
  attack_viable outcome = true /\ max_voting_power outcome = Some power.
Proof.
  intros Hd Hn Rd Rn Halarm outcome.
  destruct (squill_dust_attack_in_range census normal dust Hd Rd ltac:(lia))
    as (x & Hx & Hform).
  rewrite Hform in Halarm.
  destruct (F64.gt_int x 100) eqn:Egt; [| discriminate].
  assert (Epower : power = dust / 10 ^ 18) by congruence.
  assert (Hlt := float_alarm_sound dust normal x ltac:(lia) ltac:(lia) Hx Egt).
  unfold outcome, test_poc_comprehensive_attack_simulation.
  cbn [attack_viable max_voting_power].
  rewrite (dust_attack_preparation_returned census dust normal Hd Hn Rd
             ltac:(lia)).
  destruct (Z.eqb_spec normal 0) as [E | _]; [lia |].
  replace (dust / 10 ^ 18 >? 1000) with true.
  - now rewrite Epower.
  - symmetry. apply voting_power_above_1000.
    change (10 ^ 16) with 10000000000000000 in Rn.
    change (10 ^ 18) with 1000000000000000000. lia.
Qed.

Lemma confirmed_alarm_implies_viable_witness :
  let outcome :=
    test_poc_comprehensive_attack_simulation
      {| squid_lp_equivalent := fun _ => Raise ContractRevert;
         squill_lp_equivalent := fun amount =>
           if amount =? 1 then Ok (5162271 * 10 ^ 18)
           else Ok (126445 * 10 ^ 14) |}
      {| eth_price := Raise ContractRevert;
         squid_price := Raise ContractRevert;
         squill_price := Raise ContractRevert;
         squid_lp_equivalent_default := Raise ContractRevert;
         squill_lp_equivalent_default := Raise ContractRevert |}
      [] in
  attack_viable outcome = true /\ max_voting_power outcome = Some 5162271.
Proof.
  apply (confirmed_alarm_implies_viable _ _ []
           (5162271 * 10 ^ 18) (126445 * 10 ^ 14)
           (S754_finite false 7013890661738848 (-34)) 5162271 12).
  - reflexivity.
  - reflexivity.
  - split; [vm_compute; discriminate | reflexivity].
  - split; [vm_compute; discriminate | reflexivity].
  - vm_compute. reflexivity.
Defined.

(** * The detector's checks as the tests compute them

    The tests compute the inflation factor and the loss percentage in
    floats and compare floats.  What the two comparisons accept, and when
    the divisions return, is settled here on that arithmetic and stated
    against the exact values of section 4.1. *)

(** ** The inflation check *)

Lemma Qlt_quotient_cross (n d a b : Z) :
  0 < d -> 0 < b ->
  ((inject_Z n / inject_Z d < inject_Z a / inject_Z b)%Q <-> n * b < a * d).
Proof.
  intros Hd Hb.
  destruct d as [| pd | pd]; try lia. destruct b as [| pb | pb]; try lia.
  unfold Qlt, Qdiv, Qmult, Qinv, inject_Z. cbn [Qnum Qden].
  lia.
Qed.

(** [100 + 2^-47] is half a unit in the last place above [100.0]. *)
Lemma Qlt_half_ulp_quotient (a b : Z) :
  0 < b ->
  ((100 + (1 # 2 ^ 47) < inject_Z a / inject_Z b)%Q
   <-> (100 * 2 ^ 47 + 1) * b < a * 2 ^ 47).
Proof.
  intros Hb.
  rewrite <- (Qlt_quotient_cross (100 * 2 ^ 47 + 1) (2 ^ 47) a b)
    by (try reflexivity; exact Hb).
  assert (E : (100 + (1 # 2 ^ 47) == inject_Z (100 * 2 ^ 47 + 1) / inject_Z (2 ^ 47))%Q)
    by reflexivity.
  now rewrite E.
Qed.

(** C1, as stated, fails on the dust-attack test.  With a 1 wei rate of
    [10^21 + 1] and a standard rate of [10^19], the quantity is below the
    dust threshold and the inflation factor, [100 + 10^-19], exceeds the
    alarm factor 100; the test computes the factor as the float [100.0]
    and reports no significant inflation. *)
Lemma inflation_within_half_ulp_not_reported :
  let census := {| squid_lp_equivalent := fun _ => Raise ContractRevert;
                   squill_lp_equivalent := fun amount =>
                     if amount =? 1 then Ok (10 ^ 21 + 1) else Ok (10 ^ 19) |} in
  ~ ((exists factor power expected,
        squill_dust_attack census (10 ^ 19)
        = CriticalVulnerabilityConfirmed factor power expected)
     <-> (1 < dustThreshold default_thresholds
          /\ (inflationAlarmFactor default_thresholds
              < inject_Z (10 ^ 21 + 1) / inject_Z (10 ^ 19))%Q)).
Proof.
  intros census [_ H].
  destruct H as (factor & power & expected & H).
  - split; reflexivity.
  - vm_compute in H. discriminate H.
Qed.

(** C1, amended.  For a 1 wei probe that returned, with [uint256] rates
    and a non-zero baseline: the dust-attack test reports the inflation
    if and only if the quantity is below the dust threshold and
    [inflationFactor = probeRate / baselineRate] exceeds the alarm factor
    100 by more than [2^-47], since the factor is rounded to a float before
    it is compared.  The finding then carries that float, which exceeds
    100 as the exact factor does, and the voting power
    [quantity * probeRate / 10^18] by truncating integer division.  At or
    above the dust threshold the tests report the rates and the voting
    powers, and no inflation. *)
Theorem dust_inflated_iff_rounded (census : Census) (standard rate : Z) :
  squill_lp_equivalent census 1 = Ok rate ->
  0 <= rate < 2 ^ 256 -> 0 < standard < 2 ^ 256 ->
  let inflationFactor := (inject_Z rate / inject_Z standard)%Q in
  ((exists factor power expected,
      squill_dust_attack census standard
      = CriticalVulnerabilityConfirmed factor power expected)
   <-> (1 < dust_threshold /\ (100 + (1 # 2 ^ 47) < inflationFactor)%Q))
  /\ (forall factor power expected,
        squill_dust_attack census standard
        = CriticalVulnerabilityConfirmed factor power expected ->
        F64.int_truediv rate standard = Ok factor
        /\ F64.gt_int factor 100 = true
        /\ (100 < inflationFactor)%Q
        /\ power = (1 * rate) ÷ 10 ^ 18)
  /\ (forall quantity squid_equiv squill_equiv,
        dust_threshold <= quantity ->
        squid_lp_equivalent census quantity = Ok squid_equiv ->
        squill_lp_equivalent census quantity = Ok squill_equiv ->
        0 <= squid_equiv < 2 ^ 256 -> 0 <= squill_equiv < 2 ^ 256 ->
        dust_protection_probe census quantity
        = Measured squid_equiv squill_equiv
                   (quantity * squid_equiv / 10 ^ 18)
                   (quantity * squill_equiv / 10 ^ 18)
                   (Some AboveDustThreshold)).
Proof.
  intros Hcall Hr Hs inflationFactor.
  destruct (squill_dust_attack_in_range census standard rate Hcall Hr Hs)
    as (x & Hx & Hprobe).
  assert (Hiff := int_truediv_gt_100_iff rate standard x
                    ltac:(lia) ltac:(lia) Hx).
  assert (Hq := Qlt_half_ulp_quotient rate standard ltac:(lia)).
  fold inflationFactor in Hq.
  split; [| split].
  - rewrite Hprobe. destruct (F64.gt_int x 100).
    + split.
      * intros _. split; [reflexivity |]. apply Hq. now apply Hiff.
      * intros _. eauto.
    + split.
      * intros (factor & power & expected & H). discriminate H.
      * intros [_ H]. apply Hq, Hiff in H. discriminate H.
  - intros factor power expected H. rewrite Hprobe in H.
    destruct (F64.gt_int x 100) eqn:Egt; [| discriminate H].
    assert (Ef : factor = x) by congruence.
    assert (Ep : power = rate / 10 ^ 18) by congruence.
    subst factor.
    split; [exact Hx | split; [exact Egt | split]].
    + apply Qlt_100_quotient; [lia |].
      exact (float_alarm_sound rate standard x ltac:(lia) ltac:(lia) Hx Egt).
    + rewrite Ep, Z.mul_1_l. apply floordiv_is_truncation. lia.
  - intros quantity squid_equiv squill_equiv Hq' Hsquid Hsquill Ha Hb.
    unfold dust_protection_probe.
    rewrite Hsquid, Hsquill. cbn [bind]. rewrite !floordiv_WAD. cbn [bind].
    destruct (int_truediv_uint256 squid_equiv WAD Ha ltac:(reflexivity))
      as (y & ->).
    destruct (int_truediv_uint256 squill_equiv WAD Hb ltac:(reflexivity))
      as (z & ->).
    cbn [bind try_except].
    destruct (Z.ltb_spec quantity dust_threshold) as [H | H]; [lia |].
    destruct (Z.geb_spec quantity dust_threshold) as [H' | H'];
      [reflexivity | lia].
Qed.

Lemma dust_inflated_iff_rounded_witness :
  let census := {| squid_lp_equivalent := fun _ => Ok (126445 * 10 ^ 14);
                   squill_lp_equivalent := fun amount =>
                     if amount =? 1 then Ok (5162271 * 10 ^ 18)
                     else Ok (126445 * 10 ^ 14) |} in
  (exists factor power expected,
     squill_dust_attack census (126445 * 10 ^ 14)
     = CriticalVulnerabilityConfirmed factor power expected)
  <-> (1 < dust_threshold
       /\ (100 + (1 # 2 ^ 47)
           < inject_Z (5162271 * 10 ^ 18) / inject_Z (126445 * 10 ^ 14))%Q).
Proof.
  intros census.
  apply (dust_inflated_iff_rounded census (126445 * 10 ^ 14) (5162271 * 10 ^ 18)).
  - reflexivity.
  - split; [vm_compute; discriminate | reflexivity].
  - split; reflexivity.
Defined.

(** ** The loss percentage at its alarm value

    [loss / expected * 100 > 0.01] in binary64.  The float nearest to
    [0.0001] has mantissa 7378697629483821 at exponent -66, and its
    product with 100 is rounded to the float [0.01]; the product of the
    next float is rounded above it. *)

Lemma SFltb_at_most (Cm p : positive) (Ce e : Z) :
  e <= Ce -> Zpos p <= Zpos Cm * 2 ^ (Ce - e) ->
  SFltb (S754_finite false Cm Ce) (S754_finite false p e) = false.
Proof.
  intros He Hp. unfold SFltb, SFcompare.
  destruct (Z.compare_spec Ce e) as [E | E | E]; try reflexivity; [| lia].
  subst e. rewrite Z.sub_diag in Hp. change (2 ^ 0) with 1 in Hp.
  rewrite Pos.compare_cont_spec. cbn [Pos.switch_Eq].
  destruct (Pos.compare_spec Cm p) as [E | E | E]; try reflexivity.
  exfalso. apply Pos2Z.pos_lt_pos in E. lia.
Qed.

Lemma mul_100_at_most (x : F64.float) :
  x = S754_zero false
  \/ (exists p e2, x = S754_finite false p e2
                   /\ e2 <= -66 /\ Zpos p <= 7378697629483820 * 2 ^ (-66 - e2)) ->
  F64.gtb (F64.mul x (F64.small_int 100)) (F64.literal 1 100) = false.
Proof.
  intros [-> | (p & e2 & -> & He & Hp)]; [reflexivity |].
  change (F64.small_int 100) with (S754_finite false 7036874417766400 (-46)).
  change (F64.literal 1 100) with (S754_finite false 5764607523034235 (-59)).
  unfold F64.gtb, F64.mul, SFmul. cbn [xorb].
  assert (HP := pow2_pos (-66 - e2) ltac:(lia)).
  assert (Hb : F64.brackets
                 (shr_record_of_loc (Zpos (p * 7036874417766400)) loc_Exact)
                 (Zpos (p * 7036874417766400)) 1).
  { unfold F64.brackets. cbn [shr_record_of_loc shr_m shr_r shr_s orb].
    repeat split; lia. }
  destruct (round_at_most 5764607523034235 (-59)
              ltac:(split; [vm_compute; discriminate | reflexivity])
              ltac:(lia)
              (Zpos (p * 7036874417766400)) (e2 + -46) loc_Exact _ 1 Hb
              ltac:(lia))
    as [-> | (p' & e' & -> & He' & Hp')].
  - replace (-59 - (e2 + -46)) with (53 + (-66 - e2)) by lia.
    rewrite Z.pow_add_r by lia. change (2 ^ 53) with 9007199254740992.
    rewrite Pos2Z.inj_mul. lia.
  - reflexivity.
  - now apply SFltb_at_most.
Qed.

Lemma mul_100_reaches (p : positive) (e2 : Z) :
  -66 <= e2 -> 7378697629483823 <= Zpos p * 2 ^ (e2 + 66) ->
  F64.gtb (F64.mul (S754_finite false p e2) (F64.small_int 100))
          (F64.literal 1 100) = true.
Proof.
  intros He Hp.
  change (F64.small_int 100) with (S754_finite false 7036874417766400 (-46)).
  change (F64.literal 1 100) with (S754_finite false 5764607523034235 (-59)).
  unfold F64.gtb, F64.mul, SFmul. cbn [xorb].
  assert (Hb : F64.brackets
                 (shr_record_of_loc (Zpos (p * 7036874417766400)) loc_Exact)
                 (Zpos (p * 7036874417766400)) 1).
  { unfold F64.brackets. cbn [shr_record_of_loc shr_m shr_r shr_s orb].
    repeat split; lia. }
  assert (HN : 2 ^ 52 <= Zpos (p * 7036874417766400)).
  { rewrite Pos2Z.inj_mul. change (2 ^ 52) with 4503599627370496. lia. }
  destruct (round_reaches 5764607523034236 (-59)
              ltac:(split; [vm_compute; discriminate | reflexivity])
              ltac:(lia)
              (Zpos (p * 7036874417766400)) (e2 + -46) loc_Exact _ 1 Hb)
    as [-> | (p' & e' & -> & He' & Hp')].
  - unfold F64.reaches. rewrite Pos2Z.inj_mul.
    destruct (Z.le_gt_cases (-13) e2) as [H | H].
    + rewrite (Z.max_l 0 (-59 - (e2 + -46))) by lia.
      rewrite (Z.max_r 0 (e2 + -46 - -59)) by lia. change (2 ^ 0) with 1.
      assert (0 < 2 ^ (e2 + -46 - -59)) by (apply pow2_pos; lia). nia.
    + rewrite (Z.max_l 0 (e2 + -46 - -59)) by lia.
      rewrite (Z.max_r 0 (-59 - (e2 + -46))) by lia. change (2 ^ 0) with 1.
      assert (HU := pow2_pos (-59 - (e2 + -46)) ltac:(lia)).
      assert (E : 2 ^ (e2 + 66) * 2 ^ (-59 - (e2 + -46)) = 9007199254740992).
      { rewrite <- Z.pow_add_r by lia.
        replace (e2 + 66 + (-59 - (e2 + -46))) with 53 by lia. reflexivity. }
      assert (H1 : 7378697629483823 * 2 ^ (-59 - (e2 + -46))
                   <= Zpos p * 2 ^ (e2 + 66) * 2 ^ (-59 - (e2 + -46))).
      { apply Z.mul_le_mono_nonneg_r; lia. }
      rewrite <- Z.mul_assoc, E in H1. lia.
  - assert (Hdg := Zdigits2_ge _ 52 ltac:(lia) HN).
    unfold fexp, emin, F64.prec, F64.emax. lia.
  - reflexivity.
  - unfold SFltb, SFcompare.
    destruct (Z.compare_spec (-59) e') as [E | E | E]; try reflexivity; [| lia].
    subst e'. change (2 ^ (-59 - -59)) with 1 in Hp'.
    rewrite Pos.compare_cont_spec. cbn [Pos.switch_Eq].
    destruct (Pos.compare_spec 5764607523034235 p') as [E | E | E];
      try reflexivity.
    + subst p'. lia.
    + apply Pos2Z.pos_lt_pos in E. lia.
Qed.

(** Between the float below [0.0001] and the second float above it the
    mantissa of the quotient is known, and the remainder decides. *)
Lemma loss_ratio_near_alarm (pa pb : positive) (x : F64.float) :
  7378697629483820 * Zpos pb < Zpos pa * 2 ^ 66
                             < 7378697629483823 * Zpos pb ->
  F64.checked (SFdiv F64.prec F64.emax (S754_finite false pa 0)
                     (S754_finite false pb 0)) = Ok x ->
  (F64.gtb (F64.mul x (F64.small_int 100)) (F64.literal 1 100) = true
   <-> F64.loss_alarm_midpoint * Zpos pb <= Zpos pa * 2 ^ 67).
Proof.
  change (2 ^ 66) with 73786976294838206464.
  change (2 ^ 67) with 147573952589676412928.
  change F64.loss_alarm_midpoint with 14757395258967643.
  intros Hgap. cbn [SFdiv xorb]. rewrite SFdiv_core_positive. cbv zeta.
  set (d1 := Zdigits2 (Zpos pa)). set (d2 := Zdigits2 (Zpos pb)).
  assert (Hd2 : 0 < d2) by (unfold d2; cbn; lia).
  assert (Hd1 : 0 < d1) by (unfold d1; cbn; lia).
  assert (Hb_lt := Zdigits2_gt (Zpos pb) ltac:(lia)). fold d2 in Hb_lt.
  assert (Hb_ge := Zdigits2_lower (Zpos pb) ltac:(lia)). fold d2 in Hb_ge.
  assert (Ha_lt := Zdigits2_gt (Zpos pa) ltac:(lia)). fold d1 in Ha_lt.
  assert (Ha_ge := Zdigits2_lower (Zpos pa) ltac:(lia)). fold d1 in Ha_ge.
  (* the quotient lies between 2^-14 and 2^-13 *)
  assert (Hlow : d2 - 14 <= d1).
  { destruct (Z.le_gt_cases (d2 - 14) d1) as [H | H]; [exact H | exfalso].
    assert (H1 : 2 ^ d1 * 2 ^ 14 <= 2 ^ (d2 - 1)).
    { rewrite <- Z.pow_add_r by lia. apply Z.pow_le_mono_r; lia. }
    change (2 ^ 14) with 16384 in H1. lia. }
  assert (Hup : d1 <= d2 - 13).
  { destruct (Z.le_gt_cases d1 (d2 - 13)) as [H | H]; [exact H | exfalso].
    assert (H1 : 2 ^ d2 <= 2 ^ (d1 - 1) * 2 ^ 13).
    { rewrite <- Z.pow_add_r by lia. apply Z.pow_le_mono_r; lia. }
    change (2 ^ 13) with 8192 in H1. lia. }
  assert (He : fexp F64.prec F64.emax (d1 - d2) = d1 - d2 - 53).
  { unfold fexp, emin, F64.prec, F64.emax. lia. }
  rewrite He.
  assert (Hcase : d1 - d2 = -14 \/ d1 - d2 = -13) by lia.
  destruct Hcase as [-> | ->].
  - (* one digit more than the float has *)
    change (Z.min (-14 - 53) 0) with (-67).
    change (2 ^ (- -67)) with 147573952589676412928.
    assert (Hdm := Z_div_mod (Zpos pa * 147573952589676412928) (Zpos pb)
                     ltac:(lia)).
    destruct (Z.div_eucl (Zpos pa * 147573952589676412928) (Zpos pb)) as [q r].
    destruct Hdm as [Eq Hr]. rewrite new_location_compare.
    assert (Hq : q = 14757395258967640 \/ q = 14757395258967641
                 \/ q = 14757395258967642 \/ q = 14757395258967643
                 \/ q = 14757395258967644 \/ q = 14757395258967645) by nia.
    destruct Hq as [-> | [-> | [-> | [-> | [-> | ->]]]]];
      (destruct (Z.eqb_spec r 0) as [-> | Hr0];
       [| destruct (2 * r ?= Zpos pb)];
       intros Hx; vm_compute in Hx; injection Hx as <-;
       (split; intros H;
        [vm_compute in H; first [discriminate H | lia]
        | first [exfalso; lia | vm_compute; reflexivity]])).
  - (* the quotient has the digits of the float *)
    change (Z.min (-13 - 53) 0) with (-66).
    change (2 ^ (- -66)) with 73786976294838206464.
    assert (Hdm := Z_div_mod (Zpos pa * 73786976294838206464) (Zpos pb)
                     ltac:(lia)).
    destruct (Z.div_eucl (Zpos pa * 73786976294838206464) (Zpos pb)) as [q r].
    destruct Hdm as [Eq Hr]. rewrite new_location_compare.
    assert (Hq : q = 7378697629483820 \/ q = 7378697629483821
                 \/ q = 7378697629483822) by nia.
    destruct Hq as [-> | [-> | ->]];
      (destruct (Z.eqb_spec r 0) as [-> | Hr0];
       [| destruct (Z.compare_spec (2 * r) (Zpos pb)) as [E | E | E]];
       intros Hx; vm_compute in Hx; injection Hx as <-;
       (split; intros H;
        [vm_compute in H; first [discriminate H | lia]
        | first [exfalso; lia | vm_compute; reflexivity]])).
Qed.

(** The loss percentage exceeds the float [0.01] exactly when the ratio
    reaches the midpoint between the float nearest to [0.0001] and the
    next float: the tie is rounded to the even mantissa, the upper one. *)
Lemma loss_pct_alarm_iff (loss expected : Z) (pct : F64.float) :
  0 <= loss -> 0 < expected ->
  loss_pct_of loss expected = Ok pct ->
  (F64.gtb pct (F64.literal 1 100) = true
   <-> F64.loss_alarm_midpoint * expected <= loss * 2 ^ 67).
Proof.
  intros Hl He. unfold loss_pct_of.
  change F64.loss_alarm_midpoint with 14757395258967643.
  destruct (Z.ltb_spec 0 expected) as [_ | H]; [| lia].
  unfold F64.int_truediv.
  destruct (Z.eqb_spec expected 0) as [H | _]; [lia |].
  destruct expected as [| pb | pb]; try lia.
  destruct loss as [| pa | pa]; try lia.
  - (* no loss *)
    cbn [F64.mantissa_of SFdiv F64.checked bind xorb]. rewrite mul_int_100.
    intros [= <-]. split; [intros H; vm_compute in H; discriminate H | lia].
  - cbn [F64.mantissa_of].
    destruct (F64.checked (SFdiv F64.prec F64.emax (S754_finite false pa 0)
                                 (S754_finite false pb 0)))
      as [x | e] eqn:Hx; cbn [bind]; [| discriminate].
    rewrite mul_int_100. intros [= <-].
    assert (E66 : 2 ^ (- -66) = 73786976294838206464) by reflexivity.
    assert (E67 : 2 ^ 67 = 147573952589676412928) by reflexivity.
    rewrite E67.
    assert (Hr : -1074 <= -66 <= 971) by lia.
    destruct (Z.le_gt_cases (Zpos pa * 73786976294838206464)
                            (7378697629483820 * Zpos pb)) as [H1 | H1].
    + (* at most the float below 0.0001 *)
      rewrite mul_100_at_most; [split; [discriminate | lia] |].
      destruct (SFdiv_at_most 7378697629483820 (-66)
                  ltac:(split; [vm_compute; discriminate | reflexivity])
                  Hr pa pb ltac:(lia) ltac:(rewrite E66; exact H1))
        as [E | (p & e2 & E & He2 & Hp)];
        rewrite E in Hx; cbn [F64.checked] in Hx; injection Hx as <-.
      * now left.
      * right. now exists p, e2.
    + destruct (Z.le_gt_cases (7378697629483823 * Zpos pb)
                              (Zpos pa * 73786976294838206464)) as [H3 | H3].
      * (* at least the second float above 0.0001 *)
        destruct (SFdiv_reaches 7378697629483823 (-66)
                    ltac:(split; [vm_compute; discriminate | reflexivity])
                    Hr pa pb ltac:(lia) ltac:(rewrite E66; exact H3))
          as [E | (p & e2 & E & He2 & Hp)];
          rewrite E in Hx; cbn [F64.checked] in Hx; [discriminate Hx |].
        injection Hx as <-.
        rewrite mul_100_reaches; [split; [lia | reflexivity] | exact He2 |].
        replace (e2 + 66) with (e2 - -66) by lia. exact Hp.
      * rewrite <- E67.
        change 14757395258967643 with F64.loss_alarm_midpoint.
        apply (loss_ratio_near_alarm pa pb x); [| exact Hx].
        change (2 ^ 66) with 73786976294838206464. lia.
Qed.


(** One pool of the precision test: the guard and the alarm. *)
Lemma pool_loss_alarm_iff (actual expected : Z) (pct : F64.float) :
  loss_pct_of (loss_of actual expected) expected = Ok pct ->
  (F64.gtb pct (F64.literal 1 100) = true
   <-> 0 < expected
       /\ F64.loss_alarm_midpoint * expected
          <= Z.abs (actual - expected) * 2 ^ 67).
Proof.
  intros Hp. destruct (Z.lt_ge_cases 0 expected) as [He | He].
  - unfold loss_of in *.
    destruct (Z.ltb_spec 0 expected) as [_ | H]; [| lia].
    rewrite (loss_pct_alarm_iff (Z.abs (actual - expected)) expected pct
               (Z.abs_nonneg _) He Hp).
    tauto.
  - rewrite loss_pct_of_without_expectation in Hp by lia.
    injection Hp as <-. split; [discriminate | lia].
Qed.

(** The alarm value of the ratio lies above [0.0001], so that a loss
    percentage that the test reports does exceed 0.01. *)
Lemma loss_alarm_exceeds_pct (loss expected : Z) :
  0 < expected ->
  F64.loss_alarm_midpoint * expected <= loss * 2 ^ 67 ->
  (precisionLossAlarmPct default_thresholds
   < inject_Z loss / inject_Z expected * 100)%Q.
Proof.
  intros He H. unfold F64.loss_alarm_midpoint in H.
  change (2 * 7378697629483821 + 1) with 14757395258967643 in H.
  change (2 ^ 67) with 147573952589676412928 in H.
  destruct expected as [| pe | pe]; try lia.
  unfold Qlt, Qdiv, Qmult, Qinv, inject_Z, precisionLossAlarmPct,
    default_thresholds.
  cbn [Qnum Qden]. lia.
Qed.

(** C5, as stated, fails on the precision test.  With a rate of [10^30]
    for one full LP token and of [10^30 + 10^26 + 1] for [10^19] wei, the
    loss percentage is [0.01 + 10^-28], above the alarm value 0.01; the
    test computes it as the float [0.01] and reports acceptable
    precision. *)
Lemma precision_loss_within_rounding_not_reported :
  let census := {| squid_lp_equivalent := fun amount =>
                     if amount =? 10 ^ 18 then Ok (10 ^ 30)
                     else Ok (10 ^ 30 + 10 ^ 26 + 1);
                   squill_lp_equivalent := fun _ => Ok (10 ^ 30) |} in
  let expected := (10 ^ 19 * 10 ^ 30) ÷ 10 ^ 18 in
  let actual := (10 ^ 19 * (10 ^ 30 + 10 ^ 26 + 1)) ÷ 10 ^ 18 in
  let lossPct :=
    (inject_Z (Z.abs (actual - expected)) / inject_Z expected * 100)%Q in
  In (10 ^ 19) precision_test_amounts
  /\ ~ ((exists vp e vp' e' p q,
           precision_loss_probe census (10 ^ 19)
           = PrecisionLossDetected vp e vp' e' p q)
        <-> (precisionLossAlarmPct default_thresholds < lossPct)%Q).
Proof.
  intros census expected actual lossPct.
  split; [vm_compute; tauto |].
  intros [_ H].
  destruct H as (vp & e & vp' & e' & p & q & H).
  - reflexivity.
  - vm_compute in H. discriminate H.
Qed.

(** C5, amended.  For a probe that returned, with [uint256] quantity and
    rates: the precision test takes
    [expected = quantity * baselineRate / 10^18] and
    [actual = quantity * probeRate / 10^18] by truncating integer
    division and computes [lossPct = |actual - expected| / expected * 100]
    in floats when [expected > 0], 0 otherwise, for each pool.  It reports
    a precision loss, with the two float percentages as evidence, exactly
    when for one pool [expected > 0] and the ratio
    [|actual - expected| / expected] reaches the midpoint between the
    float nearest to 0.0001 and the next float.  The loss percentage then
    exceeds 0.01; the converse fails by rounding. *)
Theorem precision_loss_iff_rounded
    (census : Census) (quantity a b a1 b1 : Z) :
  squid_lp_equivalent census quantity = Ok a ->
  squill_lp_equivalent census quantity = Ok b ->
  squid_lp_equivalent census WAD = Ok a1 ->
  squill_lp_equivalent census WAD = Ok b1 ->
  0 <= quantity < 2 ^ 256 ->
  0 <= a < 2 ^ 256 -> 0 <= b < 2 ^ 256 ->
  0 <= a1 < 2 ^ 256 -> 0 <= b1 < 2 ^ 256 ->
  let alarmed actual expected :=
    0 < expected
    /\ F64.loss_alarm_midpoint * expected
       <= Z.abs (actual - expected) * 2 ^ 67 in
  let actual_squid := (quantity * a) ÷ 10 ^ 18 in
  let expected_squid := (quantity * a1) ÷ 10 ^ 18 in
  let actual_squill := (quantity * b) ÷ 10 ^ 18 in
  let expected_squill := (quantity * b1) ÷ 10 ^ 18 in
  (exists squid_pct squill_pct,
     loss_pct_of (loss_of actual_squid expected_squid) expected_squid
     = Ok squid_pct
     /\ loss_pct_of (loss_of actual_squill expected_squill) expected_squill
        = Ok squill_pct
     /\ precision_loss_probe census quantity
        = (if F64.gtb squid_pct (F64.literal 1 100)
              || F64.gtb squill_pct (F64.literal 1 100)
           then PrecisionLossDetected
           else PrecisionAcceptable)
            actual_squid expected_squid actual_squill expected_squill
            squid_pct squill_pct)
  /\ ((exists squid_pct squill_pct,
         precision_loss_probe census quantity
         = PrecisionLossDetected
             actual_squid expected_squid actual_squill expected_squill
             squid_pct squill_pct)
      <-> alarmed actual_squid expected_squid
          \/ alarmed actual_squill expected_squill)
  /\ (forall actual expected,
        alarmed actual expected ->
        (precisionLossAlarmPct default_thresholds
         < inject_Z (Z.abs (actual - expected)) / inject_Z expected * 100)%Q).
Proof.
  intros Ha Hb Ha1 Hb1 Hq Ra Rb Ra1 Rb1
         alarmed actual_squid expected_squid actual_squill expected_squill.
  assert (Ht : forall rate, 0 <= rate ->
            quantity * rate / 10 ^ 18 = (quantity * rate) ÷ 10 ^ 18).
  { intros rate Hrate. apply floordiv_is_truncation. nia. }
  destruct (int_truediv_uint256 quantity WAD Hq ltac:(reflexivity))
    as (shown & Hs).
  destruct (loss_pct_of_returns _ _ (voting_power_range quantity a Hq Ra)
              (voting_power_range quantity a1 Hq Ra1)) as (p & Hp).
  destruct (loss_pct_of_returns _ _ (voting_power_range quantity b Hq Rb)
              (voting_power_range quantity b1 Hq Rb1)) as (q & Hq').
  assert (Hprobe := precision_loss_probe_returned census quantity a b a1 b1
                      shown Ha Hb Ha1 Hb1 Hs p q Hp Hq').
  rewrite (Ht a), (Ht a1) in Hp, Hprobe by lia.
  rewrite (Ht b), (Ht b1) in Hq', Hprobe by lia.
  fold actual_squid expected_squid actual_squill expected_squill
    in Hp, Hq', Hprobe.
  assert (Hsquid := pool_loss_alarm_iff actual_squid expected_squid p Hp).
  assert (Hsquill := pool_loss_alarm_iff actual_squill expected_squill q Hq').
  split; [| split].
  - exists p, q. split; [exact Hp | split; [exact Hq' |]].
    rewrite Hprobe.
    now destruct (F64.gtb p (F64.literal 1 100) || F64.gtb q (F64.literal 1 100)).
  - rewrite Hprobe.
    destruct (F64.gtb p (F64.literal 1 100)) eqn:Ep;
      destruct (F64.gtb q (F64.literal 1 100)) eqn:Eq; cbn [orb].
    + split; [intros _; left; now apply Hsquid | intros _; eauto].
    + split; [intros _; left; now apply Hsquid | intros _; eauto].
    + split; [intros _; right; now apply Hsquill | intros _; eauto].
    + split.
      * intros (x & y & H). discriminate H.
      * intros [H | H]; [apply Hsquid in H | apply Hsquill in H];
          discriminate H.
  - intros actual expected [He H].
    now apply loss_alarm_exceeds_pct.
Qed.

Lemma precision_loss_iff_rounded_witness :
  let census := {| squid_lp_equivalent := fun amount =>
                     if amount =? 10 ^ 18 then Ok (10 ^ 30)
                     else Ok (10 ^ 30 + 10 ^ 26 + 10 ^ 15);
                   squill_lp_equivalent := fun _ => Ok (10 ^ 30) |} in
  exists squid_pct squill_pct,
    precision_loss_probe census (10 ^ 19)
    = PrecisionLossDetected
        ((10 ^ 19 * (10 ^ 30 + 10 ^ 26 + 10 ^ 15)) ÷ 10 ^ 18)
        ((10 ^ 19 * 10 ^ 30) ÷ 10 ^ 18)
        ((10 ^ 19 * 10 ^ 30) ÷ 10 ^ 18)
        ((10 ^ 19 * 10 ^ 30) ÷ 10 ^ 18)
        squid_pct squill_pct.
Proof.
  intros census.
  destruct (precision_loss_iff_rounded census (10 ^ 19)
              (10 ^ 30 + 10 ^ 26 + 10 ^ 15) (10 ^ 30) (10 ^ 30) (10 ^ 30))
    as (_ & H & _).
  - reflexivity.
  - reflexivity.
  - reflexivity.
  - reflexivity.
  - split; [vm_compute; discriminate | reflexivity].
  - split; [vm_compute; discriminate | reflexivity].
  - split; [vm_compute; discriminate | reflexivity].
  - split; [vm_compute; discriminate | reflexivity].
  - split; [vm_compute; discriminate | reflexivity].
  - apply H. left. split; [reflexivity | vm_compute; discriminate].
Defined.

(** ** The guards of the divisions *)





